(* ===================================================================== *)
(* TODO / Pomodoro service (src/app/endpoint.py): a shallow embedding of *)
(* the request handlers over an explicit database state, and the         *)
(* properties of the task store, the session lifecycle and the           *)
(* statistics aggregation.                                               *)
(* ===================================================================== *)

From Stdlib Require Import ZArith.
From stdpp Require Import gmap strings list fin_maps.

Local Open Scope Z_scope.
Local Open Scope string_scope.

(* --------------------------------------------------------------------- *)
(* 1. Data model                                                         *)
(* --------------------------------------------------------------------- *)

(* A Python [str] is the Rocq string of its UTF-8 encoding: two strings
   are equal exactly when their encodings are, and the number of
   characters is counted by [len] below.  A [datetime] is the number of
   microseconds since the epoch. *)
Definition datetime := Z.

(* timedelta(minutes=...) in microseconds. *)
Definition timedelta_minutes (m : Z) : Z := m * 60 * 1000000.

(* class TaskModel(Base): a row of table "tasks". *)
Record TaskModel := mkTaskModel {
  tm_id : string;
  tm_title : string;
  tm_description : option string;
  tm_status : string
}.

(* class PomodoroSession(Base): a row of table "pomodoro_sessions". *)
Record PomodoroSession := mkPomodoroSession {
  ps_id : string;
  ps_task_id : string;
  ps_start_time : datetime;
  ps_end_time : datetime;
  ps_completed : bool
}.

(* class Task(BaseModel): a validated request body. *)
Record Task := mkTask {
  title : string;
  description : option string;
  status : string
}.

Global Instance TaskModel_eq_dec : EqDecision TaskModel.
Proof. solve_decision. Defined.
Global Instance PomodoroSession_eq_dec : EqDecision PomodoroSession.
Proof. solve_decision. Defined.
Global Instance Task_eq_dec : EqDecision Task.
Proof. solve_decision. Defined.

(* The two tables, rows in insertion order. *)
Record DB := mkDB {
  tasks : list TaskModel;
  pomodoro_sessions : list PomodoroSession
}.

Definition empty_db : DB := {| tasks := []; pomodoro_sessions := [] |}.

(* --------------------------------------------------------------------- *)
(* 2. The ORM session: pending changes, flushed by commit                *)
(* --------------------------------------------------------------------- *)

(* The statements a unit of work emits when it is flushed. *)
Inductive Op :=
| InsertTask (t : TaskModel)
| UpdateTask (id : string) (ttl : string) (descr : option string) (st : string)
| DeleteTask (id : string)
| InsertSession (s : PomodoroSession)
| UpdateSessionCompleted (id : string) (b : bool).

Definition set_task (ttl : string) (descr : option string) (st : string)
    (t : TaskModel) : TaskModel :=
  {| tm_id := tm_id t; tm_title := ttl; tm_description := descr; tm_status := st |}.

Definition set_completed (b : bool) (s : PomodoroSession) : PomodoroSession :=
  {| ps_id := ps_id s; ps_task_id := ps_task_id s;
     ps_start_time := ps_start_time s; ps_end_time := ps_end_time s;
     ps_completed := b |}.

(* One statement against the tables.  [None] is an IntegrityError: the
   primary keys (id) and the unique column (tasks.title) are enforced by
   the database.  UPDATE and DELETE address the row by primary key. *)
Definition apply_op (o : Op) (d : DB) : option DB :=
  match o with
  | InsertTask t =>
      if decide (tm_id t ∈ tm_id <$> tasks d) then None
      else if decide (tm_title t ∈ tm_title <$> tasks d) then None
      else Some {| tasks := tasks d ++ [t]; pomodoro_sessions := pomodoro_sessions d |}
  | UpdateTask i ttl descr st =>
      if decide (ttl ∈ tm_title <$> filter (λ t, tm_id t ≠ i) (tasks d)) then None
      else Some {| tasks := (λ t, if decide (tm_id t = i) then set_task ttl descr st t else t)
                              <$> tasks d;
                   pomodoro_sessions := pomodoro_sessions d |}
  | DeleteTask i =>
      Some {| tasks := filter (λ t, tm_id t ≠ i) (tasks d);
              pomodoro_sessions := pomodoro_sessions d |}
  | InsertSession s =>
      if decide (ps_id s ∈ ps_id <$> pomodoro_sessions d) then None
      else Some {| tasks := tasks d; pomodoro_sessions := pomodoro_sessions d ++ [s] |}
  | UpdateSessionCompleted i b =>
      Some {| tasks := tasks d;
              pomodoro_sessions :=
                (λ s, if decide (ps_id s = i) then set_completed b s else s)
                  <$> pomodoro_sessions d |}
  end.

Fixpoint flush (ops : list Op) (d : DB) : option DB :=
  match ops with
  | [] => Some d
  | o :: ops' => match apply_op o d with
                 | Some d' => flush ops' d'
                 | None => None
                 end
  end.

(* What a request sees of the outside world: the value the id default
   [str(uuid.uuid4())] yields and the clock reading [datetime.now()]. *)
Record Env := mkEnv {
  uuid4 : string;
  now : datetime
}.

(* [db: Session]: the database and the changes not yet committed. *)
Record Sess := mkSess {
  database : DB;
  pending : list Op
}.

Inductive exn :=
| HTTPException (status_code : Z) (detail : string)
| IntegrityError
| RequestValidationError
| ResponseValidationError.

Inductive Result (A : Type) :=
| Return (a : A)
| Raise (e : exn).
Arguments Return {A} a.
Arguments Raise {A} e.

Definition Handler (A : Type) : Type := Env → Sess → Result A * Sess.

Global Instance Handler_ret : MRet Handler := λ A a _ s, (Return a, s).

Global Instance Handler_bind : MBind Handler := λ A B k m e s,
  match m e s with
  | (Return a, s') => k a e s'
  | (Raise x, s') => (Raise x, s')
  end.

Global Instance Handler_fmap : FMap Handler := λ A B f m,
  a ← m; mret (f a).

Definition raise {A} (x : exn) : Handler A := λ _ s, (Raise x, s).

(* db.query(TaskModel) / db.query(PomodoroSession): the committed rows
   (autoflush=False: pending changes are not flushed by a query). *)
Definition query_TaskModel : Handler (list TaskModel) :=
  λ _ s, (Return (tasks (database s)), s).
Definition query_PomodoroSession : Handler (list PomodoroSession) :=
  λ _ s, (Return (pomodoro_sessions (database s)), s).

(* Query.first() *)
Definition first {A} (rows : list A) : option A := head rows.

(* The id column default. *)
Definition default_id : Handler string := λ e s, (Return (uuid4 e), s).
(* datetime.now() *)
Definition datetime_now : Handler datetime := λ e s, (Return (now e), s).

(* db.add(obj), db.delete(obj) and attribute assignment on a persistent
   object register a change with the unit of work. *)
Definition register (o : Op) : Handler unit :=
  λ _ s, (Return tt, {| database := database s; pending := pending s ++ [o] |}).

(* db.commit(): flush the pending statements in one transaction; on an
   IntegrityError the transaction is rolled back. *)
Definition db_commit : Handler unit :=
  λ _ s, match flush (pending s) (database s) with
         | Some d' => (Return tt, {| database := d'; pending := [] |})
         | None => (Raise IntegrityError, {| database := database s; pending := [] |})
         end.

(* get_db: open a session on the database, run the handler, close the
   session; changes that were not committed are lost. *)
Definition run {A} (h : Handler A) (e : Env) (d : DB) : Result A * DB :=
  let '(r, s) := h e {| database := d; pending := [] |} in (r, database s).

(* --------------------------------------------------------------------- *)
(* 3. The handlers                                                       *)
(* --------------------------------------------------------------------- *)

Definition NotFound : Z := 404.
Definition Conflict : Z := 400.

Definition read_root : Handler string :=
  mret "Witaj w aplikacji TODO z obsługą Pomodoro!".

Definition create_task (task : Task) : Handler (string * TaskModel) :=
  rows ← query_TaskModel;
  match first (filter (λ t, tm_title t = title task) rows) with
  | Some _ => raise (HTTPException Conflict "Tytuł zadania musi być unikalny.")
  | None =>
      i ← default_id;
      let new_task := {| tm_id := i; tm_title := title task;
                         tm_description := description task;
                         tm_status := status task |} in
      register (InsertTask new_task);;
      db_commit;;
      (* db.refresh(new_task) reads back the row just written *)
      mret ("Zadanie zostało utworzone.", new_task)
  end.

(* [if status:] is false for None and for the empty string. *)
Definition truthy (status : option string) : bool :=
  match status with
  | None => false
  | Some s => negb (bool_decide (s = ""))
  end.

Definition get_tasks (status : option string) : Handler (list TaskModel) :=
  rows ← query_TaskModel;
  if truthy status
  then mret (filter (λ t, Some (tm_status t) = status) rows)
  else mret rows.

Definition get_task (task_id : string) : Handler TaskModel :=
  rows ← query_TaskModel;
  match first (filter (λ t, tm_id t = task_id) rows) with
  | None => raise (HTTPException NotFound "Zadanie nie zostało znalezione.")
  | Some task => mret task
  end.

Definition update_task (task_id : string) (updated_task : Task)
    : Handler (string * TaskModel) :=
  rows ← query_TaskModel;
  match first (filter (λ t, tm_id t = task_id) rows) with
  | None => raise (HTTPException NotFound "Zadanie nie zostało znalezione.")
  | Some task =>
      rows' ← query_TaskModel;
      match first (filter (λ t, tm_title t = title updated_task ∧ tm_id t ≠ task_id) rows') with
      | Some _ => raise (HTTPException Conflict "Tytuł zadania musi być unikalny.")
      | None =>
          register (UpdateTask (tm_id task) (title updated_task)
                      (description updated_task) (status updated_task));;
          db_commit;;
          mret ("Zadanie zostało zaktualizowane.",
               set_task (title updated_task) (description updated_task)
                 (status updated_task) task)
      end
  end.

Definition delete_task (task_id : string) : Handler string :=
  rows ← query_TaskModel;
  match first (filter (λ t, tm_id t = task_id) rows) with
  | None => raise (HTTPException NotFound "Zadanie nie zostało znalezione.")
  | Some task =>
      register (DeleteTask (tm_id task));;
      db_commit;;
      mret "Zadanie zostało usunięte."
  end.

Definition create_pomodoro (task_id : string) : Handler (string * PomodoroSession) :=
  rows ← query_TaskModel;
  match first (filter (λ t, tm_id t = task_id) rows) with
  | None => raise (HTTPException NotFound "Zadanie nie zostało znalezione.")
  | Some _ =>
      srows ← query_PomodoroSession;
      match first (filter (λ s, ps_task_id s = task_id ∧ ps_completed s = false) srows) with
      | Some _ => raise (HTTPException Conflict "Pomodoro dla tego zadania jest już aktywne.")
      | None =>
          start_time ← datetime_now;
          let end_time := start_time + timedelta_minutes 25 in
          i ← default_id;
          let session := {| ps_id := i; ps_task_id := task_id;
                            ps_start_time := start_time; ps_end_time := end_time;
                            ps_completed := false |} in
          register (InsertSession session);;
          db_commit;;
          mret ("Timer Pomodoro został uruchomiony.", session)
      end
  end.

Definition stop_pomodoro (task_id : string) : Handler (string * PomodoroSession) :=
  srows ← query_PomodoroSession;
  match first (filter (λ s, ps_task_id s = task_id ∧ ps_completed s = false) srows) with
  | None => raise (HTTPException NotFound "Brak aktywnego Pomodoro dla tego zadania.")
  | Some session =>
      register (UpdateSessionCompleted (ps_id session) true);;
      db_commit;;
      mret ("Pomodoro zostało zatrzymane.", set_completed true session)
  end.

(* stats[session.task_id] = stats.get(session.task_id, 0) + 25 *)
Definition credit (stats : gmap string Z) (session : PomodoroSession) : gmap string Z :=
  <[ps_task_id session := default 0 (stats !! ps_task_id session) + 25]> stats.

Definition get_pomodoro_stats : Handler (string * gmap string Z) :=
  srows ← query_PomodoroSession;
  let sessions := filter (λ s, ps_completed s = true) srows in
  mret ("Statystyki Pomodoro.", foldl credit ∅ sessions).

(* --------------------------------------------------------------------- *)
(* 4. The HTTP boundary: request validation and routing                  *)
(* --------------------------------------------------------------------- *)

(* The regular expressions the status pattern is built from. *)
Inductive regex :=
| Lit (s : string)
| Alt (r1 r2 : regex)
| Seq (r1 r2 : regex)
| Caret
| Dollar.

Fixpoint strip_prefix (p s : string) : option string :=
  match p, s with
  | EmptyString, _ => Some s
  | String a p', String b s' => if decide (a = b) then strip_prefix p' s' else None
  | String _ _, EmptyString => None
  end.

Definition newline : string := String (Ascii.ascii_of_nat 10) EmptyString.

(* A backtracking matcher in continuation style; [pos] counts the
   characters consumed so far, [rest] is what remains.  As in Python's
   [re] without flags, [^] holds at position 0, and [$] holds at the end
   of the string and just before a newline that ends the string. *)
Fixpoint re_match_at (r : regex) (pos : nat) (rest : string)
    (k : nat → string → bool) : bool :=
  match r with
  | Lit s => match strip_prefix s rest with
             | Some rest' => k (pos + String.length s)%nat rest'
             | None => false
             end
  | Alt r1 r2 => re_match_at r1 pos rest k || re_match_at r2 pos rest k
  | Seq r1 r2 => re_match_at r1 pos rest (λ pos' rest', re_match_at r2 pos' rest' k)
  | Caret => bool_decide (pos = 0%nat) && k pos rest
  | Dollar => (bool_decide (rest = "") || bool_decide (rest = newline)) && k pos rest
  end.

(* re.match: anchored at the start, the match need not reach the end. *)
Definition re_match (r : regex) (s : string) : bool :=
  re_match_at r 0 s (λ _ _, true).

(* regex="^(TODO|IN_PROGRESS|DONE)$" *)
Definition status_regex : regex :=
  Seq Caret (Seq (Alt (Lit "TODO") (Alt (Lit "IN_PROGRESS") (Lit "DONE"))) Dollar).

(* A JSON body for the Task model: a field is absent ([None]) or holds a
   string. *)
Record TaskBody := mkTaskBody {
  body_title : option string;
  body_description : option string;
  body_status : option string
}.

(* The bytes 10xxxxxx, which continue a character in UTF-8. *)
Definition is_continuation (a : Ascii.ascii) : bool :=
  match a with
  | Ascii.Ascii _ _ _ _ _ _ b6 b7 => b7 && negb b6
  end.

(* len(s): the number of characters of a str, one for every byte of its
   encoding that does not continue a character. *)
Fixpoint len (s : string) : nat :=
  match s with
  | EmptyString => 0
  | String a s' => ((if is_continuation a then 0 else 1) + len s')%nat
  end.

(* Field(..., min_length=.., max_length=..) on a str *)
Definition length_between (lo hi : nat) (s : string) : bool :=
  bool_decide (lo ≤ len s)%nat && bool_decide (len s ≤ hi)%nat.

(* Validation of a body against class Task. *)
Definition validate_Task (b : TaskBody) : option Task :=
  match body_title b with
  | None => None
  | Some ttl =>
      if negb (length_between 3 100 ttl) then None
      else if negb (from_option (length_between 0 300) true (body_description b)) then None
      else
        match body_status b with
        | None => Some {| title := ttl; description := body_description b; status := "TODO" |}
        | Some st =>
            if re_match status_regex st
            then Some {| title := ttl; description := body_description b; status := st |}
            else None
        end
  end.

(* The routes of the application. *)
Inductive Request :=
| GET_root
| POST_tasks (body : TaskBody)
| GET_tasks (status : option string)
| GET_task (task_id : string)
| PUT_task (task_id : string) (body : TaskBody)
| DELETE_task (task_id : string)
| POST_pomodoro (task_id : string)
| POST_pomodoro_stop (task_id : string)
| GET_pomodoro_stats.

(* What a handler hands over to be sent as the response. *)
Inductive Response :=
| RMessage (message : string)
| RTaskMsg (message : string) (task : TaskModel)
| RTasks (rows : list TaskModel)
| RSession (message : string) (session : PomodoroSession)
| RStats (message : string) (stats : gmap string Z).

(* A body that fails validation never reaches the handler. *)
Definition with_body {A} (b : TaskBody) (h : Task → Handler A) : Handler A :=
  match validate_Task b with
  | Some task => h task
  | None => raise RequestValidationError
  end.

(* response_model=List[dict]: what the handler returns is validated
   against the declared model before it is sent.  A TaskModel row is not
   a dict, so only the empty list passes; anything else is a response
   validation error (500). *)
Definition as_list_of_dict (rows : list TaskModel) : Handler Response :=
  match rows with
  | [] => mret (RTasks [])
  | _ :: _ => raise ResponseValidationError
  end.

(* response_model=dict: a TaskModel row is not a dict. *)
Definition as_dict (task : TaskModel) : Handler Response :=
  raise ResponseValidationError.

Definition route (rq : Request) : Handler Response :=
  match rq with
  | GET_root => RMessage <$> read_root
  | POST_tasks b => with_body b (λ task, (λ r, RTaskMsg r.1 r.2) <$> create_task task)
  | GET_tasks st => get_tasks st ≫= as_list_of_dict
  | GET_task i => get_task i ≫= as_dict
  | PUT_task i b => with_body b (λ task, (λ r, RTaskMsg r.1 r.2) <$> update_task i task)
  | DELETE_task i => RMessage <$> delete_task i
  | POST_pomodoro i => (λ r, RSession r.1 r.2) <$> create_pomodoro i
  | POST_pomodoro_stop i => (λ r, RSession r.1 r.2) <$> stop_pomodoro i
  | GET_pomodoro_stats => (λ r, RStats r.1 r.2) <$> get_pomodoro_stats
  end.

(* One request served against the database. *)
Definition serve (e : Env) (rq : Request) (d : DB) : Result Response * DB :=
  run (route rq) e d.

(* The databases the service can be in: it starts with empty tables and
   serves requests one after the other. *)
Inductive reachable : DB → Prop :=
| reachable_init : reachable empty_db
| reachable_serve e rq d : reachable d → reachable (serve e rq d).2.

(* The database after a sequence of requests. *)
Fixpoint serve_all (rqs : list (Env * Request)) (d : DB) : DB :=
  match rqs with
  | [] => d
  | (e, rq) :: rqs' => serve_all rqs' (serve e rq d).2
  end.

(* --------------------------------------------------------------------- *)
(* 5. Vocabulary of the statements                                       *)
(* --------------------------------------------------------------------- *)

(* The active (uncompleted) sessions of a task, as the handlers query
   them. *)
Definition active_sessions (task_id : string) (d : DB) : list PomodoroSession :=
  filter (λ s, ps_task_id s = task_id ∧ ps_completed s = false) (pomodoro_sessions d).

(* The completed sessions of a task. *)
Definition completed_sessions (task_id : string) (d : DB) : list PomodoroSession :=
  filter (λ s, ps_task_id s = task_id ∧ ps_completed s = true) (pomodoro_sessions d).

(* The session [create_pomodoro] builds. *)
Definition new_session (e : Env) (task_id : string) : PomodoroSession :=
  {| ps_id := uuid4 e; ps_task_id := task_id;
     ps_start_time := now e; ps_end_time := now e + timedelta_minutes 25;
     ps_completed := false |}.

(* The row [create_task] builds. *)
Definition new_task (e : Env) (task : Task) : TaskModel :=
  {| tm_id := uuid4 e; tm_title := title task;
     tm_description := description task; tm_status := status task |}.

(* How a stored session may differ between two observations: every
   column but [completed] is the same, and [completed] never goes back
   to false. *)
Definition evolves (s s' : PomodoroSession) : Prop :=
  ps_id s' = ps_id s ∧ ps_task_id s' = ps_task_id s ∧
  ps_start_time s' = ps_start_time s ∧ ps_end_time s' = ps_end_time s ∧
  (ps_completed s = true → ps_completed s' = true).

(* The values of the status enumeration. *)
Definition status_values : list string := ["TODO"; "IN_PROGRESS"; "DONE"].

(* Integrity of the tables: primary keys and the unique title column. *)
Definition consistent (d : DB) : Prop :=
  NoDup (tm_id <$> tasks d) ∧ NoDup (tm_title <$> tasks d) ∧
  NoDup (ps_id <$> pomodoro_sessions d).

Definition msg_task_not_found : string := "Zadanie nie zostało znalezione.".
Definition msg_title_taken : string := "Tytuł zadania musi być unikalny.".
Definition msg_already_active : string := "Pomodoro dla tego zadania jest już aktywne.".
Definition msg_no_active : string := "Brak aktywnego Pomodoro dla tego zadania.".

(* What remains of the stored sessions from one observation to a later
   one: the row at every position is still there and has evolved. *)
Definition persists (d d' : DB) : Prop :=
  ∀ k s, pomodoro_sessions d !! k = Some s →
    ∃ s', pomodoro_sessions d' !! k = Some s' ∧ evolves s s'.

(* The minutes credited to a task: 25 for each completed session. *)
Definition credited_minutes (task_id : string) (d : DB) : option Z :=
  match completed_sessions task_id d with
  | [] => None
  | l => Some (25 * Z.of_nat (length l))
  end.

(* The row an UPDATE of task [i] leaves in place of [t]. *)
Definition updated_row (i : string) (task : Task) (t : TaskModel) : TaskModel :=
  if decide (tm_id t = i)
  then set_task (title task) (description task) (status task) t
  else t.

(* The row an UPDATE completing session [i] leaves in place of [s]. *)
Definition completed_row (i : string) (s : PomodoroSession) : PomodoroSession :=
  if decide (ps_id s = i) then set_completed true s else s.

(* What one request can do to the tables. *)
Inductive change (e : Env) (d : DB) : DB → Prop :=
| change_none : change e d d
| change_insert_task task :
    uuid4 e ∉ tm_id <$> tasks d →
    title task ∉ tm_title <$> tasks d →
    change e d {| tasks := tasks d ++ [new_task e task];
                  pomodoro_sessions := pomodoro_sessions d |}
| change_update_task i task :
    title task ∉ tm_title <$> filter (λ t, tm_id t ≠ i) (tasks d) →
    change e d {| tasks := updated_row i task <$> tasks d;
                  pomodoro_sessions := pomodoro_sessions d |}
| change_delete_task i :
    change e d {| tasks := filter (λ t, tm_id t ≠ i) (tasks d);
                  pomodoro_sessions := pomodoro_sessions d |}
| change_insert_session i :
    uuid4 e ∉ ps_id <$> pomodoro_sessions d →
    active_sessions i d = [] →
    change e d {| tasks := tasks d;
                  pomodoro_sessions := pomodoro_sessions d ++ [new_session e i] |}
| change_complete_session i s :
    head (active_sessions i d) = Some s →
    change e d {| tasks := tasks d;
                  pomodoro_sessions := completed_row (ps_id s) <$> pomodoro_sessions d |}.

(* A session with other timestamps. *)
Definition retime (f g : PomodoroSession → datetime) (s : PomodoroSession)
    : PomodoroSession :=
  {| ps_id := ps_id s; ps_task_id := ps_task_id s;
     ps_start_time := f s; ps_end_time := g s; ps_completed := ps_completed s |}.

(* Sample requests and the databases they lead to. *)
Definition env_a : Env := {| uuid4 := "a"; now := 1000 |}.
Definition env_b : Env := {| uuid4 := "b"; now := 2000 |}.
Definition env_c : Env := {| uuid4 := "c"; now := 3000 |}.

Definition body_report : TaskBody :=
  {| body_title := Some "Write report"; body_description := None; body_status := None |}.
Definition task_report : Task :=
  {| title := "Write report"; description := None; status := "TODO" |}.

(* One task, with id "a". *)
Definition db_task : DB := serve_all [(env_a, POST_tasks body_report)] empty_db.
(* ... and a running pomodoro for it. *)
Definition db_active : DB := serve_all [(env_b, POST_pomodoro "a")] db_task.
(* ... stopped at once. *)
Definition db_stopped : DB := serve_all [(env_c, POST_pomodoro_stop "a")] db_active.
(* The task deleted while its pomodoro is running. *)
Definition db_orphan : DB := serve_all [(env_c, DELETE_task "a")] db_active.

(* A second task, with id "b". *)
Definition body_plan : TaskBody :=
  {| body_title := Some "Plan sprint"; body_description := Some "two weeks";
     body_status := Some "IN_PROGRESS" |}.
Definition db_two_tasks : DB := serve_all [(env_b, POST_tasks body_plan)] db_task.
(* The first title in another letter case. *)
Definition task_report_lower : Task :=
  {| title := "write report"; description := None; status := "DONE" |}.

(* A task row that satisfies the constraints of class Task. *)
Definition row_valid (t : TaskModel) : Prop :=
  (3 ≤ len (tm_title t) ≤ 100)%nat ∧
  (∀ s, tm_description t = Some s → (len s ≤ 300)%nat) ∧
  re_match status_regex (tm_status t) = true.

(* A session that ends 25 minutes after it starts. *)
Definition session_timed (s : PomodoroSession) : Prop :=
  ps_end_time s = ps_start_time s + timedelta_minutes 25.

(* --------------------------------------------------------------------- *)
(* 6. The handlers, one equation each                                    *)
(* --------------------------------------------------------------------- *)

Ltac run_handler :=
  unfold run, mbind, mret, fmap, Handler_fmap, Handler_bind, Handler_ret, raise,
    query_TaskModel, query_PomodoroSession, default_id, datetime_now, register,
    db_commit, first; simpl.

Lemma head_filter_None {A} (P : A → Prop) `{!∀ x, Decision (P x)} (l : list A) :
  head (filter P l) = None ↔ ∀ x, x ∈ l → ¬ P x.
Proof.
  rewrite head_None. split.
  - intros Hnil x Hx HP.
    assert (x ∈ filter P l) as Hin by (apply list_elem_of_filter; done).
    rewrite Hnil in Hin. by apply not_elem_of_nil in Hin.
  - intros Hno. destruct (filter P l) as [|y k] eqn:E; [done|].
    assert (y ∈ filter P l) as Hin by (rewrite E; left).
    apply list_elem_of_filter in Hin as [HP Hy]. by destruct (Hno y Hy).
Qed.

Lemma run_get_tasks st e d :
  run (get_tasks st) e d =
    (Return (if truthy st then filter (λ t, Some (tm_status t) = st) (tasks d)
             else tasks d), d).
Proof. unfold get_tasks. run_handler. by destruct (truthy st). Qed.

Lemma run_get_task i e d :
  run (get_task i) e d =
    match head (filter (λ t, tm_id t = i) (tasks d)) with
    | None => (Raise (HTTPException NotFound msg_task_not_found), d)
    | Some task => (Return task, d)
    end.
Proof. unfold get_task. run_handler. by destruct (head _). Qed.

Lemma run_get_pomodoro_stats e d :
  run get_pomodoro_stats e d =
    (Return ("Statystyki Pomodoro.",
             foldl credit ∅ (filter (λ s, ps_completed s = true) (pomodoro_sessions d))), d).
Proof. reflexivity. Qed.

Lemma run_delete_task i e d :
  run (delete_task i) e d =
    match head (filter (λ t, tm_id t = i) (tasks d)) with
    | None => (Raise (HTTPException NotFound msg_task_not_found), d)
    | Some _ => (Return "Zadanie zostało usunięte.",
                 {| tasks := filter (λ t, tm_id t ≠ i) (tasks d);
                    pomodoro_sessions := pomodoro_sessions d |})
    end.
Proof.
  unfold delete_task. run_handler.
  destruct (head _) as [t|] eqn:E; [|done]. simpl.
  apply head_Some_elem_of, list_elem_of_filter in E as [-> _]. done.
Qed.

Lemma run_stop_pomodoro i e d :
  run (stop_pomodoro i) e d =
    match head (active_sessions i d) with
    | None => (Raise (HTTPException NotFound msg_no_active), d)
    | Some s => (Return ("Pomodoro zostało zatrzymane.", set_completed true s),
                 {| tasks := tasks d;
                    pomodoro_sessions := completed_row (ps_id s) <$> pomodoro_sessions d |})
    end.
Proof.
  unfold stop_pomodoro, active_sessions. run_handler.
  by destruct (head _) as [s|].
Qed.

Lemma run_create_pomodoro i e d :
  run (create_pomodoro i) e d =
    match head (filter (λ t, tm_id t = i) (tasks d)) with
    | None => (Raise (HTTPException NotFound msg_task_not_found), d)
    | Some _ =>
        match head (active_sessions i d) with
        | Some _ => (Raise (HTTPException Conflict msg_already_active), d)
        | None =>
            if decide (uuid4 e ∈ ps_id <$> pomodoro_sessions d)
            then (Raise IntegrityError, d)
            else (Return ("Timer Pomodoro został uruchomiony.", new_session e i),
                  {| tasks := tasks d;
                     pomodoro_sessions := pomodoro_sessions d ++ [new_session e i] |})
        end
    end.
Proof.
  unfold create_pomodoro, active_sessions. run_handler.
  destruct (head (filter _ (tasks d))); [|done]. simpl.
  destruct (head (filter _ (pomodoro_sessions d))); [done|]. simpl.
  by destruct (decide _).
Qed.

Lemma run_create_task task e d :
  run (create_task task) e d =
    match head (filter (λ t, tm_title t = title task) (tasks d)) with
    | Some _ => (Raise (HTTPException Conflict msg_title_taken), d)
    | None =>
        if decide (uuid4 e ∈ tm_id <$> tasks d)
        then (Raise IntegrityError, d)
        else (Return ("Zadanie zostało utworzone.", new_task e task),
              {| tasks := tasks d ++ [new_task e task];
                 pomodoro_sessions := pomodoro_sessions d |})
    end.
Proof.
  unfold create_task. run_handler.
  destruct (head _) eqn:E; [done|]. simpl.
  destruct (decide (uuid4 e ∈ _)); [done|].
  rewrite decide_False; [done|].
  intros (t & Ht & Hin)%list_elem_of_fmap.
  by eapply head_filter_None in E.
Qed.

Lemma run_update_task i task e d :
  run (update_task i task) e d =
    match head (filter (λ t, tm_id t = i) (tasks d)) with
    | None => (Raise (HTTPException NotFound msg_task_not_found), d)
    | Some t =>
        match head (filter (λ t, tm_title t = title task ∧ tm_id t ≠ i) (tasks d)) with
        | Some _ => (Raise (HTTPException Conflict msg_title_taken), d)
        | None =>
            (Return ("Zadanie zostało zaktualizowane.",
                     set_task (title task) (description task) (status task) t),
             {| tasks := updated_row i task <$> tasks d;
                pomodoro_sessions := pomodoro_sessions d |})
        end
    end.
Proof.
  unfold update_task. run_handler.
  destruct (head (filter (λ t, tm_id t = i) _)) as [t|] eqn:Et; [|done]. simpl.
  destruct (head (filter (λ t, tm_title t = _ ∧ _) _)) eqn:E; [done|]. simpl.
  apply head_Some_elem_of, list_elem_of_filter in Et as [-> _].
  rewrite decide_False; [done|].
  intros (t' & Ht' & [Hne Hin]%list_elem_of_filter)%list_elem_of_fmap.
  eapply head_filter_None in E; [|exact Hin]. by apply E.
Qed.

Lemma run_fmap {A B} (f : A → B) (h : Handler A) e d :
  run (f <$> h) e d =
    match run h e d with
    | (Return a, d') => (Return (f a), d')
    | (Raise x, d') => (Raise x, d')
    end.
Proof.
  unfold run, fmap, Handler_fmap, mbind, Handler_bind, mret, Handler_ret.
  by destruct (h e _) as [[a|x] s].
Qed.

Lemma run_fmap_db {A B} (f : A → B) (h : Handler A) e d :
  (run (f <$> h) e d).2 = (run h e d).2.
Proof. rewrite run_fmap. by destruct (run h e d) as [[a|x] d']. Qed.

Lemma run_with_body {A} b (h : Task → Handler A) e d :
  run (with_body b h) e d =
    match validate_Task b with
    | Some task => run (h task) e d
    | None => (Raise RequestValidationError, d)
    end.
Proof. unfold with_body. by destruct (validate_Task b). Qed.

Lemma run_get_tasks_response st e d :
  run (get_tasks st ≫= as_list_of_dict) e d =
    (match (if truthy st then filter (λ t, Some (tm_status t) = st) (tasks d)
            else tasks d) with
     | [] => Return (RTasks [])
     | _ :: _ => Raise ResponseValidationError
     end, d).
Proof.
  unfold get_tasks, as_list_of_dict. run_handler.
  destruct (truthy st); csimpl.
  - by destruct (filter _ _).
  - by destruct (tasks d).
Qed.

Lemma run_get_task_response i e d :
  run (get_task i ≫= as_dict) e d =
    (Raise (match head (filter (λ t, tm_id t = i) (tasks d)) with
            | None => HTTPException NotFound msg_task_not_found
            | Some _ => ResponseValidationError
            end), d).
Proof. unfold get_task, as_dict. run_handler. by destruct (head _). Qed.

(* --------------------------------------------------------------------- *)
(* 7. Every request is one of the changes                                *)
(* --------------------------------------------------------------------- *)

Lemma create_task_change task e d : change e d (run (create_task task) e d).2.
Proof.
  rewrite run_create_task.
  destruct (head _) eqn:E; [apply change_none|].
  destruct (decide _) as [|Hid]; [apply change_none|]. simpl.
  apply change_insert_task; [done|].
  intros (t & Ht & Hin)%list_elem_of_fmap.
  by eapply head_filter_None in E.
Qed.

Lemma update_task_change i task e d : change e d (run (update_task i task) e d).2.
Proof.
  rewrite run_update_task.
  destruct (head (filter (λ t, tm_id t = i) _)); [|apply change_none].
  destruct (head _) eqn:E; [apply change_none|]. simpl.
  apply change_update_task.
  intros (t' & Ht' & [Hne Hin]%list_elem_of_filter)%list_elem_of_fmap.
  eapply head_filter_None in E; [|exact Hin]. by apply E.
Qed.

Lemma delete_task_change i e d : change e d (run (delete_task i) e d).2.
Proof.
  rewrite run_delete_task. destruct (head _); [apply change_delete_task|apply change_none].
Qed.

Lemma create_pomodoro_change i e d : change e d (run (create_pomodoro i) e d).2.
Proof.
  rewrite run_create_pomodoro.
  destruct (head (filter _ (tasks d))); [|apply change_none].
  destruct (head (active_sessions i d)) eqn:E; [apply change_none|].
  destruct (decide _); [apply change_none|]. simpl.
  apply change_insert_session; [done|]. by apply head_None.
Qed.

Lemma stop_pomodoro_change i e d : change e d (run (stop_pomodoro i) e d).2.
Proof.
  rewrite run_stop_pomodoro.
  destruct (head (active_sessions i d)) as [s|] eqn:E; [|apply change_none].
  simpl. by apply (change_complete_session e d i s).
Qed.

Lemma serve_change e rq d : change e d (serve e rq d).2.
Proof.
  unfold serve. destruct rq; cbn [route].
  - apply change_none.
  - rewrite run_with_body. destruct (validate_Task body); [|apply change_none].
    rewrite run_fmap_db. apply create_task_change.
  - rewrite run_get_tasks_response. apply change_none.
  - rewrite run_get_task_response. apply change_none.
  - rewrite run_with_body. destruct (validate_Task body); [|apply change_none].
    rewrite run_fmap_db. apply update_task_change.
  - rewrite run_fmap_db. apply delete_task_change.
  - rewrite run_fmap_db. apply create_pomodoro_change.
  - rewrite run_fmap_db. apply stop_pomodoro_change.
  - apply change_none.
Qed.

(* --------------------------------------------------------------------- *)
(* 8. Integrity of the tables is preserved                               *)
(* --------------------------------------------------------------------- *)

Lemma updated_row_id i task t : tm_id (updated_row i task t) = tm_id t.
Proof. unfold updated_row. by destruct (decide _). Qed.

Lemma completed_row_id i s : ps_id (completed_row i s) = ps_id s.
Proof. unfold completed_row. by destruct (decide _). Qed.

Lemma completed_row_task_id i s : ps_task_id (completed_row i s) = ps_task_id s.
Proof. unfold completed_row. by destruct (decide _). Qed.

Lemma updated_rows_ids i task (l : list TaskModel) :
  tm_id <$> (updated_row i task <$> l) = tm_id <$> l.
Proof.
  induction l as [|t l IH]; [done|]. csimpl. by rewrite updated_row_id, IH.
Qed.

Lemma completed_rows_ids i (l : list PomodoroSession) :
  ps_id <$> (completed_row i <$> l) = ps_id <$> l.
Proof.
  induction l as [|s l IH]; [done|]. csimpl. by rewrite completed_row_id, IH.
Qed.

Lemma updated_rows_absent i task (l : list TaskModel) :
  i ∉ tm_id <$> l → updated_row i task <$> l = l.
Proof.
  induction l as [|t l IH]; [done|]. csimpl.
  intros [Hne Hl]%not_elem_of_cons.
  unfold updated_row at 1. rewrite decide_False by done. by rewrite IH.
Qed.

Lemma filter_others_absent i (l : list TaskModel) :
  i ∉ tm_id <$> l → filter (λ t, tm_id t ≠ i) l = l.
Proof.
  induction l as [|t l IH]; [done|]. csimpl.
  intros [Hne Hl]%not_elem_of_cons.
  rewrite filter_cons_True by done. by rewrite IH.
Qed.

Lemma updated_rows_titles i task (l : list TaskModel) x :
  x ∈ tm_title <$> (updated_row i task <$> l) →
  x = title task ∨ x ∈ tm_title <$> l.
Proof.
  induction l as [|t l IH]; csimpl; [by right|].
  intros [->|Hin]%elem_of_cons.
  - unfold updated_row. destruct (decide _); [by left|right; left].
  - destruct (IH Hin); [by left|right; by right].
Qed.

Lemma updated_rows_titles_NoDup i task (l : list TaskModel) :
  NoDup (tm_id <$> l) → NoDup (tm_title <$> l) →
  title task ∉ tm_title <$> filter (λ t, tm_id t ≠ i) l →
  NoDup (tm_title <$> (updated_row i task <$> l)).
Proof.
  induction l as [|t l IH]; [done|]. csimpl.
  intros [Hid Hids]%NoDup_cons [Htt Htts]%NoDup_cons Hfree.
  unfold updated_row at 1. destruct (decide (tm_id t = i)) as [<-|Hne].
  - rewrite filter_cons_False in Hfree by (intros Hc; by apply Hc).
    rewrite filter_others_absent in Hfree by done.
    rewrite updated_rows_absent by done.
    apply NoDup_cons. by split.
  - rewrite filter_cons_True in Hfree by done. csimpl in Hfree.
    apply not_elem_of_cons in Hfree as [Hne' Hfree].
    apply NoDup_cons. split; [|by apply IH].
    intros [Heq|Hin]%updated_rows_titles; [by symmetry in Heq|done].
Qed.

Lemma filter_fmap_NoDup {A B} (f : A → B) (P : A → Prop) `{!∀ x, Decision (P x)}
    (l : list A) :
  NoDup (f <$> l) → NoDup (f <$> filter P l).
Proof.
  induction l as [|x l IH]; [done|]. csimpl.
  intros [Hx Hl]%NoDup_cons. rewrite filter_cons.
  destruct (decide (P x)); [|by apply IH]. csimpl.
  apply NoDup_cons. split; [|by apply IH].
  intros (y & Hy & [_ Hin]%list_elem_of_filter)%list_elem_of_fmap.
  apply Hx, list_elem_of_fmap. eauto.
Qed.

Lemma snoc_fmap_NoDup {A B} (f : A → B) (l : list A) x :
  NoDup (f <$> l) → f x ∉ f <$> l → NoDup (f <$> (l ++ [x])%list).
Proof.
  intros Hl Hx. rewrite fmap_app. apply NoDup_app. split_and!; [done| |].
  - intros y Hy [->|[]%elem_of_nil]%elem_of_cons. done.
  - apply NoDup_singleton.
Qed.

Lemma change_consistent e d d' : consistent d → change e d d' → consistent d'.
Proof.
  intros (Hids & Htitles & Hsids) Hc.
  destruct Hc as [|task Hid Httl|i task Hfree|i|i Hid Hact|i s Hs];
    unfold consistent; csimpl; split_and!; try done.
  - by apply snoc_fmap_NoDup.
  - by apply snoc_fmap_NoDup.
  - by rewrite updated_rows_ids.
  - by apply updated_rows_titles_NoDup.
  - by apply filter_fmap_NoDup.
  - by apply filter_fmap_NoDup.
  - by apply snoc_fmap_NoDup.
  - by rewrite completed_rows_ids.
Qed.

Lemma reachable_consistent d : reachable d → consistent d.
Proof.
  induction 1 as [|e rq d _ IH].
  - unfold consistent; csimpl. split_and!; apply NoDup_nil_2.
  - eapply change_consistent; [exact IH|apply serve_change].
Qed.

(* --------------------------------------------------------------------- *)
(* 9. At most one active session per task                                *)
(* --------------------------------------------------------------------- *)

Lemma active_after_completion i j (l : list PomodoroSession) :
  (length (filter (λ s, ps_task_id s = j ∧ ps_completed s = false) (completed_row i <$> l))
   ≤ length (filter (λ s, ps_task_id s = j ∧ ps_completed s = false) l))%nat.
Proof.
  induction l as [|s l IH]; [done|]. csimpl.
  unfold completed_row at 1. destruct (decide (ps_id s = i)).
  - rewrite filter_cons_False by (csimpl; intros [_ ?]; done).
    rewrite (filter_cons _ s). destruct (decide _); csimpl; lia.
  - rewrite !(filter_cons _ s). destruct (decide _); csimpl; lia.
Qed.

Lemma change_one_active e d d' :
  (∀ j, (length (active_sessions j d) ≤ 1)%nat) → change e d d' →
  ∀ j, (length (active_sessions j d') ≤ 1)%nat.
Proof.
  intros Hone Hc j.
  destruct Hc as [|task Hid Httl|i task Hfree|i|i Hid Hact|i s Hs];
    unfold active_sessions in *; csimpl; try apply Hone.
  - rewrite filter_app, length_app.
    destruct (decide (j = i)) as [->|Hne].
    + rewrite Hact. csimpl. rewrite filter_cons, filter_nil.
      destruct (decide _); csimpl; lia.
    + rewrite filter_cons_False by (csimpl; intros [? _]; done).
      rewrite filter_nil. csimpl. specialize (Hone j). lia.
  - etrans; [apply active_after_completion|apply Hone].
Qed.

Lemma reachable_one_active d :
  reachable d → ∀ j, (length (active_sessions j d) ≤ 1)%nat.
Proof.
  induction 1 as [|e rq d _ IH].
  - intros j. unfold active_sessions. csimpl. lia.
  - eapply change_one_active; [exact IH|apply serve_change].
Qed.

(* --------------------------------------------------------------------- *)
(* 10. Stored sessions persist                                           *)
(* --------------------------------------------------------------------- *)

Lemma evolves_refl s : evolves s s.
Proof. by unfold evolves. Qed.

Lemma evolves_trans s1 s2 s3 : evolves s1 s2 → evolves s2 s3 → evolves s1 s3.
Proof.
  unfold evolves. intros (?&?&?&?&H12) (?&?&?&?&H23).
  split_and!; try congruence. auto.
Qed.

Lemma evolves_completed_row i s : evolves s (completed_row i s).
Proof.
  unfold completed_row. destruct (decide _); [|apply evolves_refl].
  by unfold evolves.
Qed.

Lemma evolves_completed s s' : evolves s s' → ps_completed s = true → s' = s.
Proof.
  destruct s, s'. unfold evolves. csimpl. intros (?&?&?&?&Hc) Ht.
  rewrite (Hc Ht), Ht. congruence.
Qed.

Lemma persists_refl d : persists d d.
Proof. intros k s Hk. exists s. split; [done|apply evolves_refl]. Qed.

Lemma persists_trans d1 d2 d3 : persists d1 d2 → persists d2 d3 → persists d1 d3.
Proof.
  intros H12 H23 k s Hk.
  destruct (H12 k s Hk) as (s2 & Hk2 & He2).
  destruct (H23 k s2 Hk2) as (s3 & Hk3 & He3).
  exists s3. split; [done|]. by eapply evolves_trans.
Qed.

Lemma change_persists e d d' : change e d d' → persists d d'.
Proof.
  intros Hc k s0 Hk.
  destruct Hc as [|task Hid Httl|i task Hfree|i|i Hid Hact|i s Hs]; csimpl;
    try (exists s0; split; [done|apply evolves_refl]).
  - exists s0. split; [by apply lookup_app_l_Some|apply evolves_refl].
  - exists (completed_row (ps_id s) s0). split; [|apply evolves_completed_row].
    by rewrite list_lookup_fmap, Hk.
Qed.

Lemma serve_all_persists rqs d : persists d (serve_all rqs d).
Proof.
  revert d. induction rqs as [|[e rq] rqs IH]; intros d; csimpl.
  - apply persists_refl.
  - eapply persists_trans; [|apply IH]. eapply change_persists, serve_change.
Qed.

(* --------------------------------------------------------------------- *)
(* 11. The statistics                                                    *)
(* --------------------------------------------------------------------- *)

Lemma foldl_credit_lookup (l : list PomodoroSession) (m : gmap string Z) j :
  foldl credit m l !! j =
    match filter (λ s, ps_task_id s = j) l with
    | [] => m !! j
    | k => Some (default 0 (m !! j) + 25 * Z.of_nat (length k))
    end.
Proof.
  revert m. induction l as [|s l IH]; intros m; [done|]. csimpl.
  rewrite IH, filter_cons.
  destruct (decide (ps_task_id s = j)) as [<-|Hne]; unfold credit.
  - rewrite lookup_insert_eq. csimpl.
    destruct (filter _ l) as [|s' k]; csimpl; f_equal; lia.
  - rewrite lookup_insert_ne by done. done.
Qed.

Lemma stats_lookup d j :
  foldl credit ∅ (filter (λ s, ps_completed s = true) (pomodoro_sessions d)) !! j
  = credited_minutes j d.
Proof.
  rewrite foldl_credit_lookup, list_filter_filter, lookup_empty.
  unfold credited_minutes, completed_sessions.
  destruct (filter _ _); csimpl; [done|]. f_equal.
Qed.

(* --------------------------------------------------------------------- *)
(* 12. The status pattern                                                *)
(* --------------------------------------------------------------------- *)

Lemma append_nil_l (s : string) : "" +:+ s = s.
Proof. reflexivity. Qed.

Lemma append_cons a (p s : string) : String a p +:+ s = String a (p +:+ s).
Proof. reflexivity. Qed.

Lemma append_nil_r (s : string) : s +:+ "" = s.
Proof.
  induction s as [|a s IH]; [done|]. by rewrite append_cons, IH.
Qed.

Lemma append_inj_l (p r1 r2 : string) : p +:+ r1 = p +:+ r2 → r1 = r2.
Proof.
  induction p as [|a p IH]; [done|]. rewrite !append_cons. intros [=]. auto.
Qed.

Lemma strip_prefix_Some p s r : strip_prefix p s = Some r ↔ s = p +:+ r.
Proof.
  revert s. induction p as [|a p IH]; intros s.
  - rewrite append_nil_l. simpl. split; congruence.
  - rewrite append_cons. destruct s as [|b s]; simpl; [split; discriminate|].
    destruct (decide (a = b)) as [->|Hne].
    + rewrite IH. split; congruence.
    + split; [discriminate|]. intros [=]. done.
Qed.

Lemma strip_prefix_append p r : strip_prefix p (p +:+ r) = Some r.
Proof. by apply strip_prefix_Some. Qed.

Lemma lit_dollar_spec p st :
  re_match_at (Seq (Lit p) Dollar) 0 st (λ _ _, true) = true
  ↔ st = p ∨ st = p +:+ newline.
Proof.
  cbn [re_match_at]. destruct (strip_prefix p st) as [r|] eqn:E.
  - apply strip_prefix_Some in E as ->.
    rewrite andb_true_r, orb_true_iff, !bool_decide_eq_true. split.
    + intros [->| ->]; [left; apply append_nil_r|by right].
    + intros [H|H].
      * left. rewrite <-(append_nil_r p) in H at 2. by apply append_inj_l in H.
      * right. by apply append_inj_l in H.
  - split; [discriminate|].
    intros [->| ->].
    + pose proof (strip_prefix_append p "") as H.
      rewrite append_nil_r in H. congruence.
    + rewrite strip_prefix_append in E. done.
Qed.

Lemma status_regex_spec st :
  re_match status_regex st = true ↔
  st ∈ status_values ∨ ∃ v, v ∈ status_values ∧ st = v +:+ newline.
Proof.
  unfold re_match, status_regex. cbn [re_match_at].
  rewrite bool_decide_eq_true_2 by done. cbn [andb].
  rewrite !orb_true_iff.
  pose proof (lit_dollar_spec "TODO" st) as H1.
  pose proof (lit_dollar_spec "IN_PROGRESS" st) as H2.
  pose proof (lit_dollar_spec "DONE" st) as H3.
  cbn [re_match_at] in H1, H2, H3. rewrite H1, H2, H3. clear H1 H2 H3.
  unfold status_values. split.
  - intros [[->| ->]|[[->| ->]|[->| ->]]];
      first [left; set_solver | right; eexists; split; [|reflexivity]; set_solver].
  - intros [Hin|(v & Hin & ->)];
      repeat (apply elem_of_cons in Hin as [->|Hin]); try (by apply elem_of_nil in Hin); tauto.
Qed.

(* --------------------------------------------------------------------- *)
(* 13. Reachability of the sample databases                              *)
(* --------------------------------------------------------------------- *)

Lemma reachable_serve_all rqs d : reachable d → reachable (serve_all rqs d).
Proof.
  revert d. induction rqs as [|[e rq] rqs IH]; intros d Hd; [done|].
  apply IH. by constructor.
Defined.

Lemma reachable_db_task : reachable db_task.
Proof. apply reachable_serve_all, reachable_init. Defined.

Lemma reachable_db_active : reachable db_active.
Proof. apply reachable_serve_all, reachable_db_task. Defined.

Lemma reachable_db_stopped : reachable db_stopped.
Proof. apply reachable_serve_all, reachable_db_active. Defined.

Lemma reachable_db_orphan : reachable db_orphan.
Proof. apply reachable_serve_all, reachable_db_active. Defined.

Lemma head_filter_id_None i (l : list TaskModel) :
  head (filter (λ t, tm_id t = i) l) = None ↔ i ∉ tm_id <$> l.
Proof.
  rewrite head_filter_None, list_elem_of_fmap. split.
  - intros Hno (t & -> & Hin). by apply (Hno t).
  - intros Hno t Hin Hid. apply Hno. exists t. by split.
Qed.

Lemma head_filter_id_Some i (l : list TaskModel) :
  i ∈ tm_id <$> l → is_Some (head (filter (λ t, tm_id t = i) l)).
Proof.
  intros Hin. destruct (head _) eqn:E; [by eexists|].
  by apply head_filter_id_None in E.
Qed.

(* --------------------------------------------------------------------- *)
(* 14. The session lifecycle                                             *)
(* --------------------------------------------------------------------- *)

(** C1 (as stated, refuted): starting a pomodoro does not always either
    fail with Conflict or create a session.  With empty tables no active
    session exists for "xyz", yet start("xyz") creates none: it fails
    with NotFound.  And once a task was deleted while its pomodoro was
    running, an active session exists for "a", yet start("a") fails with
    NotFound rather than Conflict. *)
Lemma C1_start_without_task_counterexample :
  (reachable empty_db ∧
   active_sessions "xyz" empty_db = [] ∧
   run (create_pomodoro "xyz") env_a empty_db
     = (Raise (HTTPException NotFound msg_task_not_found), empty_db)) ∧
  (reachable db_orphan ∧
   active_sessions "a" db_orphan ≠ [] ∧
   run (create_pomodoro "a") env_c db_orphan
     = (Raise (HTTPException NotFound msg_task_not_found), db_orphan)).
Proof.
  split; split_and!.
  - apply reachable_init.
  - reflexivity.
  - reflexivity.
  - apply reachable_db_orphan.
  - vm_compute. discriminate.
  - vm_compute. reflexivity.
Qed.

(** C1 (amended): in every database reachable by a sequence of requests,
    every task id has at most one session with completed = false; for a
    task that exists, start fails with Conflict (400) when such a
    session exists and otherwise (the generated id being fresh) appends
    one new active session; and for an id that no task has, start fails
    with NotFound (404) and creates nothing, whether or not an active
    session exists for that id. *)
Theorem C1_at_most_one_active_session (d : DB) :
  reachable d →
  (∀ j, (length (active_sessions j d) ≤ 1)%nat) ∧
  (∀ e task_id,
     task_id ∈ tm_id <$> tasks d →
     uuid4 e ∉ ps_id <$> pomodoro_sessions d →
     run (create_pomodoro task_id) e d =
       match active_sessions task_id d with
       | _ :: _ => (Raise (HTTPException Conflict msg_already_active), d)
       | [] => (Return ("Timer Pomodoro został uruchomiony.", new_session e task_id),
                {| tasks := tasks d;
                   pomodoro_sessions := pomodoro_sessions d ++ [new_session e task_id] |})
       end) ∧
  (∀ e task_id,
     task_id ∉ tm_id <$> tasks d →
     run (create_pomodoro task_id) e d
       = (Raise (HTTPException NotFound msg_task_not_found), d)).
Proof.
  intros Hr. split_and!; [by apply reachable_one_active| |].
  - intros e i Hin Hfresh. rewrite run_create_pomodoro.
    destruct (head_filter_id_Some i (tasks d) Hin) as [t ->].
    destruct (active_sessions i d); csimpl; [|done].
    by rewrite decide_False.
  - intros e i Hout%head_filter_id_None.
    by rewrite run_create_pomodoro, Hout.
Qed.

Lemma C1_at_most_one_active_session_witness :
  (length (active_sessions "a" db_active) ≤ 1)%nat ∧
  run (create_pomodoro "a") env_c db_active
    = (Raise (HTTPException Conflict msg_already_active), db_active) ∧
  run (create_pomodoro "a") env_a db_stopped
    = (Return ("Timer Pomodoro został uruchomiony.", new_session env_a "a"),
       {| tasks := tasks db_stopped;
          pomodoro_sessions := pomodoro_sessions db_stopped ++ [new_session env_a "a"] |}) ∧
  active_sessions "a" db_orphan ≠ [] ∧
  run (create_pomodoro "a") env_c db_orphan
    = (Raise (HTTPException NotFound msg_task_not_found), db_orphan).
Proof.
  destruct (C1_at_most_one_active_session db_active reachable_db_active)
    as (Hone & Hstart & _).
  destruct (C1_at_most_one_active_session db_stopped reachable_db_stopped)
    as (_ & Hstart' & _).
  destruct (C1_at_most_one_active_session db_orphan reachable_db_orphan)
    as (_ & _ & Hmissing).
  split_and!.
  - apply Hone.
  - apply (Hstart env_c "a"); vm_compute; [left|].
    intros H. repeat (apply elem_of_cons in H as [H|H]; [discriminate|]).
    by apply elem_of_nil in H.
  - apply (Hstart' env_a "a"); vm_compute; [left|].
    intros H. repeat (apply elem_of_cons in H as [H|H]; [discriminate|]).
    by apply elem_of_nil in H.
  - vm_compute. discriminate.
  - apply (Hmissing env_c "a"). vm_compute. intros H. by apply elem_of_nil in H.
Defined.

(** C2: start(task_id) fails with NotFound (404) when no task has that
    id; fails with Conflict (400) when the task exists and has an
    uncompleted session; otherwise (the generated id being fresh) it
    appends exactly one session with start_time = now, end_time = now +
    25 minutes and completed = false, and leaves the task table as it
    was.  In the two failure cases the database is unchanged. *)
Theorem C2_create_pomodoro (e : Env) (d : DB) (task_id : string) :
  uuid4 e ∉ ps_id <$> pomodoro_sessions d →
  run (create_pomodoro task_id) e d =
    (if decide (task_id ∈ tm_id <$> tasks d) then
       match active_sessions task_id d with
       | _ :: _ => (Raise (HTTPException Conflict msg_already_active), d)
       | [] => (Return ("Timer Pomodoro został uruchomiony.", new_session e task_id),
                {| tasks := tasks d;
                   pomodoro_sessions := pomodoro_sessions d ++ [new_session e task_id] |})
       end
     else (Raise (HTTPException NotFound msg_task_not_found), d)) ∧
  new_session e task_id =
    {| ps_id := uuid4 e; ps_task_id := task_id; ps_start_time := now e;
       ps_end_time := now e + 25 * 60 * 1000000; ps_completed := false |}.
Proof.
  intros Hfresh. split; [|reflexivity].
  rewrite run_create_pomodoro.
  destruct (decide (task_id ∈ tm_id <$> tasks d)) as [Hin|Hout].
  - destruct (head_filter_id_Some task_id (tasks d) Hin) as [t ->].
    destruct (active_sessions task_id d); csimpl; [|done].
    by rewrite decide_False.
  - apply head_filter_id_None in Hout. by rewrite Hout.
Qed.

Lemma C2_create_pomodoro_witness :
  run (create_pomodoro "a") env_b db_task =
    (Return ("Timer Pomodoro został uruchomiony.",
             {| ps_id := "b"; ps_task_id := "a"; ps_start_time := 2000;
                ps_end_time := 1500002000; ps_completed := false |}),
     {| tasks := tasks db_task;
        pomodoro_sessions :=
          [{| ps_id := "b"; ps_task_id := "a"; ps_start_time := 2000;
              ps_end_time := 1500002000; ps_completed := false |}] |}).
Proof.
  assert (uuid4 env_b ∉ ps_id <$> pomodoro_sessions db_task) as Hfresh.
  { vm_compute. intros H; inversion H. }
  destruct (C2_create_pomodoro env_b db_task "a" Hfresh) as [Hrun _].
  rewrite Hrun. vm_compute. reflexivity.
Defined.

Lemma completed_rows_insert (l : list PomodoroSession) k s :
  NoDup (ps_id <$> l) → l !! k = Some s →
  completed_row (ps_id s) <$> l = <[k := set_completed true s]> l.
Proof.
  intros Hnd Hk. apply list_eq. intros j. rewrite list_lookup_fmap.
  destruct (decide (j = k)) as [->|Hne].
  - rewrite list_lookup_insert_eq by (by eapply lookup_lt_Some).
    rewrite Hk. csimpl. unfold completed_row. by rewrite decide_True.
  - rewrite list_lookup_insert_ne by done.
    destruct (l !! j) as [s'|] eqn:Ej; [|done]. csimpl. f_equal.
    unfold completed_row. rewrite decide_False; [done|].
    intros Heq. apply Hne.
    apply (NoDup_lookup (ps_id <$> l) j k (ps_id s)); [done| |].
    + by rewrite list_lookup_fmap, Ej, <-Heq.
    + by rewrite list_lookup_fmap, Hk.
Qed.

Lemma no_active_after_completion i s (l : list PomodoroSession) :
  filter (λ x, ps_task_id x = i ∧ ps_completed x = false) l = [s] →
  filter (λ x, ps_task_id x = i ∧ ps_completed x = false) (completed_row (ps_id s) <$> l) = [].
Proof.
  intros Hone. apply head_None, head_filter_None.
  intros x' (x & -> & Hx)%list_elem_of_fmap [Hi Hc].
  rewrite completed_row_task_id in Hi.
  unfold completed_row in Hc. destruct (decide (ps_id x = ps_id s)) as [Heq|Hne]; [done|].
  assert (x ∈ [s]) as Hin by (rewrite <-Hone; by apply list_elem_of_filter).
  apply list_elem_of_singleton in Hin as ->. done.
Qed.

(** C3: stop(task_id) fails with NotFound (404) exactly when task_id has
    no uncompleted session.  Otherwise it succeeds whatever the clock
    reads and whatever the session's end_time is: the first uncompleted
    session of the task gets completed = true and nothing else changes.
    In a reachable database a second stop right after the first one
    fails with NotFound. *)
Theorem C3_stop_pomodoro (d : DB) (task_id : string) :
  reachable d →
  (∀ e, (run (stop_pomodoro task_id) e d).1 = Raise (HTTPException NotFound msg_no_active)
        ↔ active_sessions task_id d = []) ∧
  (∀ e s, head (active_sessions task_id d) = Some s →
     ∃ k, pomodoro_sessions d !! k = Some s ∧
       run (stop_pomodoro task_id) e d =
         (Return ("Pomodoro zostało zatrzymane.", set_completed true s),
          {| tasks := tasks d;
             pomodoro_sessions := <[k := set_completed true s]> (pomodoro_sessions d) |})) ∧
  (∀ e e', run (stop_pomodoro task_id) e' (run (stop_pomodoro task_id) e d).2
           = (Raise (HTTPException NotFound msg_no_active),
              (run (stop_pomodoro task_id) e d).2)).
Proof.
  intros Hr. split_and!.
  - intros e. rewrite run_stop_pomodoro, <-head_None.
    destruct (head _); csimpl; split; congruence.
  - intros e s Hs. rewrite run_stop_pomodoro, Hs.
    assert (s ∈ pomodoro_sessions d) as Hin.
    { apply head_Some_elem_of in Hs. unfold active_sessions in Hs.
      by apply list_elem_of_filter in Hs as [_ ?]. }
    apply list_elem_of_lookup in Hin as [k Hk]. exists k. split; [done|].
    destruct (reachable_consistent d Hr) as (_ & _ & Hnd).
    by rewrite (completed_rows_insert _ k s Hnd Hk).
  - intros e e'. rewrite (run_stop_pomodoro task_id e d).
    destruct (head (active_sessions task_id d)) as [s|] eqn:Hs; csimpl.
    + rewrite run_stop_pomodoro.
      assert (active_sessions task_id d = [s]) as Hone.
      { pose proof (reachable_one_active d Hr task_id) as Hlen.
        destruct (active_sessions task_id d) as [|s0 [|s1 k]];
          csimpl in *; [done|congruence|lia]. }
      unfold active_sessions in *. csimpl.
      by rewrite (no_active_after_completion task_id s _ Hone).
    + by rewrite run_stop_pomodoro, Hs.
Qed.

Lemma C3_stop_pomodoro_witness :
  (run (stop_pomodoro "a") env_c db_active).1
    ≠ Raise (HTTPException NotFound msg_no_active) ∧
  (∃ k, run (stop_pomodoro "a") env_c db_active =
     (Return ("Pomodoro zostało zatrzymane.", set_completed true (new_session env_b "a")),
      {| tasks := tasks db_active;
         pomodoro_sessions :=
           <[k := set_completed true (new_session env_b "a")]> (pomodoro_sessions db_active) |})) ∧
  (run (stop_pomodoro "a") env_a (run (stop_pomodoro "a") env_c db_active).2).1
    = Raise (HTTPException NotFound msg_no_active).
Proof.
  destruct (C3_stop_pomodoro db_active "a" reachable_db_active) as (Hiff & Hstop & Htwice).
  split_and!.
  - intros Hnf. apply (Hiff env_c) in Hnf. vm_compute in Hnf. discriminate.
  - destruct (Hstop env_c (new_session env_b "a")) as (k & _ & Hk); [reflexivity|].
    by exists k.
  - by rewrite (Htwice env_c env_a).
Defined.

(* --------------------------------------------------------------------- *)
(* 15. The statistics aggregator                                         *)
(* --------------------------------------------------------------------- *)

Lemma foldl_credit_retime f g (l : list PomodoroSession) (m : gmap string Z) :
  foldl credit m (filter (λ s, ps_completed s = true) (retime f g <$> l))
  = foldl credit m (filter (λ s, ps_completed s = true) l).
Proof.
  revert m. induction l as [|s l IH]; intros m; [done|]. csimpl.
  rewrite !filter_cons. csimpl.
  destruct (decide (ps_completed s = true)); csimpl; [|apply IH].
  rewrite IH. done.
Qed.

(** C4: in every database getStats returns a mapping whose keys are
    exactly the task ids that have a completed session, each mapped to
    25 times the number of its completed sessions; the result does not
    depend on the start and end times stored in the sessions; and the
    database is left as it was. *)
Theorem C4_get_pomodoro_stats (e : Env) (d : DB) :
  ∃ stats : gmap string Z,
    run get_pomodoro_stats e d = (Return ("Statystyki Pomodoro.", stats), d) ∧
    (∀ j, stats !! j =
            match completed_sessions j d with
            | [] => None
            | l => Some (25 * Z.of_nat (length l))
            end) ∧
    (∀ j, j ∈ dom stats ↔
            ∃ s, s ∈ pomodoro_sessions d ∧ ps_task_id s = j ∧ ps_completed s = true) ∧
    (∀ f g,
       (run get_pomodoro_stats e
          {| tasks := tasks d; pomodoro_sessions := retime f g <$> pomodoro_sessions d |}).1
       = Return ("Statystyki Pomodoro.", stats)).
Proof.
  eexists. split; [apply run_get_pomodoro_stats|]. split_and!.
  - intros j. apply stats_lookup.
  - intros j. rewrite elem_of_dom, stats_lookup. unfold credited_minutes.
    split.
    + intros Hsome.
      destruct (completed_sessions j d) as [|s l] eqn:E; [by destruct Hsome|].
      assert (s ∈ completed_sessions j d) as Hin by (rewrite E; left).
      unfold completed_sessions in Hin.
      apply list_elem_of_filter in Hin as [[? ?] ?]. by exists s.
    + intros (s & Hin & Hj & Hc).
      assert (s ∈ completed_sessions j d) as Hin'.
      { unfold completed_sessions. by apply list_elem_of_filter. }
      destruct (completed_sessions j d); [by apply elem_of_nil in Hin'|by eexists].
  - intros f g. rewrite run_get_pomodoro_stats. csimpl.
    by rewrite foldl_credit_retime.
Qed.

(* --------------------------------------------------------------------- *)
(* 16. The task store                                                    *)
(* --------------------------------------------------------------------- *)

Lemma head_filter_title_Some ttl (l : list TaskModel) :
  ttl ∈ tm_title <$> l → is_Some (head (filter (λ t, tm_title t = ttl) l)).
Proof.
  intros (t & -> & Hin)%list_elem_of_fmap.
  destruct (head _) eqn:E; [by eexists|].
  by eapply head_filter_None in E.
Qed.

Lemma head_filter_title_other_Some ttl i (l : list TaskModel) :
  ttl ∈ tm_title <$> filter (λ t, tm_id t ≠ i) l →
  is_Some (head (filter (λ t, tm_title t = ttl ∧ tm_id t ≠ i) l)).
Proof.
  intros (t & -> & [Hne Hin]%list_elem_of_filter)%list_elem_of_fmap.
  destruct (head _) eqn:E; [by eexists|].
  eapply head_filter_None in E; [|exact Hin]. by destruct E.
Qed.

(** C5: creating a task whose title is already stored, and updating an
    existing task to a title that another task (a row with a different
    id) holds, fail with Conflict (400) and leave the database
    unchanged; titles are compared for exact equality, so a title that
    is not stored as such never gives Conflict on creation; and the
    titles of the tasks are pairwise distinct in every reachable
    database. *)
Theorem C5_title_uniqueness :
  (∀ e d task,
     title task ∈ tm_title <$> tasks d →
     run (create_task task) e d = (Raise (HTTPException Conflict msg_title_taken), d)) ∧
  (∀ e d task,
     title task ∉ tm_title <$> tasks d →
     (run (create_task task) e d).1 ≠ Raise (HTTPException Conflict msg_title_taken)) ∧
  (∀ e d task_id task,
     task_id ∈ tm_id <$> tasks d →
     title task ∈ tm_title <$> filter (λ t, tm_id t ≠ task_id) (tasks d) →
     run (update_task task_id task) e d
       = (Raise (HTTPException Conflict msg_title_taken), d)) ∧
  (∀ d, reachable d → NoDup (tm_title <$> tasks d)).
Proof.
  split_and!.
  - intros e d task Hin. rewrite run_create_task.
    by destruct (head_filter_title_Some _ _ Hin) as [t ->].
  - intros e d task Hout. rewrite run_create_task.
    destruct (head _) as [t|] eqn:E.
    + apply head_Some_elem_of, list_elem_of_filter in E as [Ht Hin].
      destruct Hout. apply list_elem_of_fmap. by exists t.
    + by destruct (decide _).
  - intros e d i task Hid Hin. rewrite run_update_task.
    destruct (head_filter_id_Some i (tasks d) Hid) as [t ->].
    by destruct (head_filter_title_other_Some _ _ _ Hin) as [t' ->].
  - intros d Hr. by destruct (reachable_consistent d Hr) as (_ & ? & _).
Qed.

Lemma reachable_db_two_tasks : reachable db_two_tasks.
Proof. apply reachable_serve_all, reachable_db_task. Defined.

Lemma C4_get_pomodoro_stats_witness :
  ∃ stats : gmap string Z,
    run get_pomodoro_stats env_a db_stopped
      = (Return ("Statystyki Pomodoro.", stats), db_stopped) ∧
    stats !! "a" = Some 25 ∧ "a" ∈ dom stats ∧ stats !! "b" = None.
Proof.
  destruct (C4_get_pomodoro_stats env_a db_stopped) as (stats & Hrun & Hlook & Hdom & _).
  exists stats. split_and!.
  - exact Hrun.
  - rewrite Hlook. reflexivity.
  - apply Hdom. exists (set_completed true (new_session env_b "a")).
    split_and!; [vm_compute; left|reflexivity|reflexivity].
  - rewrite Hlook. reflexivity.
Defined.

Lemma C5_title_uniqueness_witness :
  run (create_task task_report) env_c db_two_tasks
    = (Raise (HTTPException Conflict msg_title_taken), db_two_tasks) ∧
  (run (create_task task_report_lower) env_c db_two_tasks).1
    ≠ Raise (HTTPException Conflict msg_title_taken) ∧
  run (update_task "b" task_report) env_c db_two_tasks
    = (Raise (HTTPException Conflict msg_title_taken), db_two_tasks) ∧
  NoDup (tm_title <$> tasks db_two_tasks).
Proof.
  destruct C5_title_uniqueness as (Hcreate & Hexact & Hupdate & Huniq).
  split_and!.
  - apply Hcreate. vm_compute. left.
  - apply Hexact. vm_compute.
    intros H. inversion H as [|? ? ? H']; subst. inversion H' as [|? ? ? H'']; subst.
    inversion H''.
  - apply Hupdate; vm_compute; [right; left|left].
  - apply Huniq, reachable_db_two_tasks.
Defined.

(** C6: deleting a task removes the rows of table tasks with that id and
    nothing else: the other tasks stay, and every pomodoro session, also
    those of the deleted task, stays in its table unchanged and is
    counted by getStats as before. *)
Theorem C6_delete_task_keeps_sessions (e e' : Env) (d : DB) (task_id : string) :
  tasks (run (delete_task task_id) e d).2 = filter (λ t, tm_id t ≠ task_id) (tasks d) ∧
  pomodoro_sessions (run (delete_task task_id) e d).2 = pomodoro_sessions d ∧
  (run get_pomodoro_stats e' (run (delete_task task_id) e d).2).1
    = (run get_pomodoro_stats e' d).1.
Proof.
  rewrite run_delete_task.
  destruct (head _) as [t|] eqn:E; csimpl.
  - done.
  - apply head_filter_id_None in E. by rewrite filter_others_absent.
Qed.

(** C7: a stored session is never removed and, once completed, never
    changes again: after any sequence of requests the row at the same
    position has the same id, task_id, start_time and end_time, and if
    completed was true it is the very same row. *)
Theorem C7_completed_is_terminal (rqs : list (Env * Request)) (d : DB)
    (k : nat) (s : PomodoroSession) :
  pomodoro_sessions d !! k = Some s →
  ∃ s', pomodoro_sessions (serve_all rqs d) !! k = Some s' ∧
        evolves s s' ∧
        (ps_completed s = true → s' = s).
Proof.
  intros Hk. destruct (serve_all_persists rqs d k s Hk) as (s' & Hk' & He).
  exists s'. split_and!; [done|done|]. by apply evolves_completed.
Qed.

Lemma C7_completed_is_terminal_witness :
  ∃ s', pomodoro_sessions
          (serve_all [(env_c, DELETE_task "a"); (env_a, POST_pomodoro_stop "a");
                      (env_a, POST_tasks body_report); (env_c, POST_pomodoro "a");
                      (env_b, GET_pomodoro_stats)] db_stopped) !! 0%nat = Some s' ∧
        s' = set_completed true (new_session env_b "a").
Proof.
  destruct (C7_completed_is_terminal
              [(env_c, DELETE_task "a"); (env_a, POST_pomodoro_stop "a");
               (env_a, POST_tasks body_report); (env_c, POST_pomodoro "a");
               (env_b, GET_pomodoro_stats)]
              db_stopped 0 (set_completed true (new_session env_b "a")))
    as (s' & Hk & _ & Hsame); [reflexivity|].
  exists s'. split; [exact Hk|]. apply Hsame. reflexivity.
Defined.

(* The spec's scenario "create task, start pomodoro, stop at once": the
   stop succeeds although the clock has not reached end_time. *)
Example stop_before_end_time :
  now env_c < ps_end_time (new_session env_b "a") ∧
  run (stop_pomodoro "a") env_c db_active
    = (Return ("Pomodoro zostało zatrzymane.", set_completed true (new_session env_b "a")),
       db_stopped).
Proof. split; reflexivity. Qed.

(* A session whose task was deleted can still be stopped and is still
   credited. *)
Example orphan_session_is_credited :
  tasks db_orphan = [] ∧
  pomodoro_sessions db_orphan = [new_session env_b "a"] ∧
  (run get_pomodoro_stats env_a (run (stop_pomodoro "a") env_a db_orphan).2).1
    = Return ("Statystyki Pomodoro.", {["a" := 25]}).
Proof. split_and!; reflexivity. Qed.

(* --------------------------------------------------------------------- *)
(* 17. The HTTP boundary                                                 *)
(* --------------------------------------------------------------------- *)

(* In Python, [$] also matches just before a line feed that ends the
   string. *)
Example status_pattern_line_feed :
  re_match status_regex "DONE" = true ∧
  re_match status_regex ("DONE" +:+ newline) = true ∧
  re_match status_regex "DONE " = false ∧
  re_match status_regex "done" = false ∧
  re_match status_regex "" = false.
Proof. split_and!; reflexivity. Qed.

(** C8 (as stated, refuted): the status filter of the task listing is
    not validated.  A request with the filter "BOGUS", which is none of
    the three status values, is not rejected: the handler runs and
    answers with the (empty) list of the tasks having that status. *)
Lemma C8_status_filter_counterexample :
  ("BOGUS" ∉ status_values) ∧
  serve env_c (GET_tasks (Some "BOGUS")) db_two_tasks = (Return (RTasks []), db_two_tasks).
Proof.
  split; [|reflexivity].
  unfold status_values. intros H.
  repeat (apply elem_of_cons in H as [H|H]; [discriminate|]).
  by apply elem_of_nil in H.
Qed.

(** C8 (amended): the status field of a task body, on creation and on
    update, accepts TODO, IN_PROGRESS and DONE, and a body whose status
    is none of the three values (nor one of them followed by a line
    feed) is rejected with a validation error before the handler runs,
    the database being unchanged.  The status filter of the listing is
    not validated: whatever its value, the request is not rejected with
    a validation error of the request. *)
Theorem C8_status_validation :
  (∀ ttl descr st,
     length_between 3 100 ttl = true →
     from_option (length_between 0 300) true descr = true →
     st ∈ status_values →
     validate_Task {| body_title := Some ttl; body_description := descr;
                      body_status := Some st |}
       = Some {| title := ttl; description := descr; status := st |}) ∧
  (∀ b st,
     body_status b = Some st →
     st ∉ status_values →
     (∀ v, v ∈ status_values → st ≠ v +:+ newline) →
     validate_Task b = None ∧
     ∀ e d task_id,
       serve e (POST_tasks b) d = (Raise RequestValidationError, d) ∧
       serve e (PUT_task task_id b) d = (Raise RequestValidationError, d)) ∧
  (∀ e d st, (serve e (GET_tasks st) d).1 ≠ Raise RequestValidationError).
Proof.
  split_and!.
  - intros ttl descr st Httl Hdescr Hst. unfold validate_Task. csimpl.
    rewrite Httl, Hdescr. csimpl.
    assert (re_match status_regex st = true) as -> by (apply status_regex_spec; by left).
    done.
  - intros b st Hb Hst Hnl.
    assert (validate_Task b = None) as Hnone.
    { unfold validate_Task. rewrite Hb.
      destruct (body_title b); [|done].
      destruct (negb _); [done|]. destruct (negb _); [done|].
      destruct (re_match status_regex st) eqn:E; [|done].
      apply status_regex_spec in E as [Hin|(v & Hin & ->)]; [done|].
      by destruct (Hnl v Hin). }
    split; [done|]. intros e d i. unfold serve. cbn [route].
    by rewrite !run_with_body, Hnone.
  - intros e d st. unfold serve. cbn [route].
    rewrite run_get_tasks_response. by destruct (if truthy st then _ else _).
Qed.

Lemma C8_status_validation_witness :
  validate_Task {| body_title := Some "Write report"; body_description := None;
                   body_status := Some "DONE" |}
    = Some {| title := "Write report"; description := None; status := "DONE" |} ∧
  serve env_c (POST_tasks {| body_title := Some "Tidy desk"; body_description := None;
                             body_status := Some "done" |}) db_task
    = (Raise RequestValidationError, db_task) ∧
  serve env_c (PUT_task "a" {| body_title := Some "Tidy desk"; body_description := None;
                               body_status := Some "done" |}) db_task
    = (Raise RequestValidationError, db_task).
Proof.
  destruct C8_status_validation as (Hok & Hbad & _).
  split.
  - apply Hok; [reflexivity|reflexivity|]. vm_compute. right. right. left.
  - apply (Hbad {| body_title := Some "Tidy desk"; body_description := None;
                   body_status := Some "done" |} "done").
    + reflexivity.
    + unfold status_values. intros H.
      repeat (apply elem_of_cons in H as [H|H]; [discriminate|]).
      by apply elem_of_nil in H.
    + unfold status_values. intros v H.
      repeat (apply elem_of_cons in H as [->|H]; [discriminate|]).
      by apply elem_of_nil in H.
Defined.

(** C9: listing with the empty string as status filter is listing
    without a filter: both answer with all the stored tasks, in order;
    a filter that is not empty answers with the tasks whose status
    equals it. *)
Theorem C9_get_tasks_filter (e : Env) (d : DB) (st : string) :
  st ≠ "" →
  run (get_tasks (Some "")) e d = run (get_tasks None) e d ∧
  run (get_tasks None) e d = (Return (tasks d), d) ∧
  run (get_tasks (Some st)) e d = (Return (filter (λ t, tm_status t = st) (tasks d)), d).
Proof.
  intros Hne. rewrite !run_get_tasks. csimpl.
  rewrite bool_decide_eq_false_2 by done. csimpl. split_and!; [done|done|].
  do 2 f_equal. apply list_filter_iff. intros t. split; congruence.
Qed.

Lemma C9_get_tasks_filter_witness :
  run (get_tasks (Some "")) env_c db_two_tasks = run (get_tasks None) env_c db_two_tasks ∧
  run (get_tasks None) env_c db_two_tasks = (Return (tasks db_two_tasks), db_two_tasks) ∧
  run (get_tasks (Some "IN_PROGRESS")) env_c db_two_tasks
    = (Return (filter (λ t, tm_status t = "IN_PROGRESS") (tasks db_two_tasks)), db_two_tasks).
Proof. apply (C9_get_tasks_filter env_c db_two_tasks "IN_PROGRESS"). discriminate. Defined.

(** C10: listing the tasks, fetching one task and computing the
    statistics leave both tables as they were, in every database; so
    does fetching a task id that is not stored, which fails with
    NotFound (404). *)
Theorem C10_reads_leave_store (e : Env) (d : DB) (st : option string) (task_id : string) :
  (run (get_tasks st) e d).2 = d ∧
  (run (get_task task_id) e d).2 = d ∧
  (run get_pomodoro_stats e d).2 = d ∧
  (serve e (GET_tasks st) d).2 = d ∧
  (serve e (GET_task task_id) d).2 = d ∧
  (serve e GET_pomodoro_stats d).2 = d ∧
  (task_id ∉ tm_id <$> tasks d →
   run (get_task task_id) e d = (Raise (HTTPException NotFound msg_task_not_found), d)).
Proof.
  unfold serve. cbn [route].
  rewrite run_get_tasks_response, run_get_task_response, run_fmap_db.
  rewrite run_get_tasks, run_get_task, run_get_pomodoro_stats.
  split_and!; try done.
  - by destruct (head _).
  - intros Hout. apply head_filter_id_None in Hout. by rewrite Hout.
Qed.

Lemma C10_reads_leave_store_witness :
  (run (get_task "xyz") env_c db_stopped).2 = db_stopped ∧
  run (get_task "xyz") env_c db_stopped
    = (Raise (HTTPException NotFound msg_task_not_found), db_stopped).
Proof.
  destruct (C10_reads_leave_store env_c db_stopped None "xyz")
    as (_ & Hget & _ & _ & _ & _ & Hnf).
  split; [exact Hget|]. apply Hnf. vm_compute.
  intros H. inversion H as [|? ? ? H']; subst. inversion H'.
Defined.

(* --------------------------------------------------------------------- *)
(* 18. More on the task store                                            *)
(* --------------------------------------------------------------------- *)

Lemma filter_id_absent i (l : list TaskModel) :
  i ∉ tm_id <$> l → filter (λ t, tm_id t = i) l = [].
Proof. intros Hout. by apply head_None, head_filter_id_None. Qed.

Lemma head_filter_id_lookup (l : list TaskModel) k t :
  NoDup (tm_id <$> l) → l !! k = Some t →
  head (filter (λ x, tm_id x = tm_id t) l) = Some t.
Proof.
  revert k. induction l as [|x l IH]; intros k Hnd Hk; [done|].
  csimpl in Hnd. apply NoDup_cons in Hnd as [Hx Hnd].
  destruct k as [|k]; csimpl in Hk.
  - injection Hk as ->. by rewrite filter_cons_True.
  - rewrite filter_cons_False; [by eapply IH|].
    intros Heq. apply Hx. rewrite Heq.
    apply list_elem_of_fmap. exists t. split; [done|].
    by eapply list_elem_of_lookup_2.
Qed.

Lemma updated_rows_insert (l : list TaskModel) k t task :
  NoDup (tm_id <$> l) → l !! k = Some t →
  updated_row (tm_id t) task <$> l
    = <[k := set_task (title task) (description task) (status task) t]> l.
Proof.
  intros Hnd Hk. apply list_eq. intros j. rewrite list_lookup_fmap.
  destruct (decide (j = k)) as [->|Hne].
  - rewrite list_lookup_insert_eq by (by eapply lookup_lt_Some).
    rewrite Hk. csimpl. unfold updated_row. by rewrite decide_True.
  - rewrite list_lookup_insert_ne by done.
    destruct (l !! j) as [t'|] eqn:Ej; [|done]. csimpl. f_equal.
    unfold updated_row. rewrite decide_False; [done|].
    intros Heq. apply Hne.
    apply (NoDup_lookup (tm_id <$> l) j k (tm_id t)); [done| |].
    + by rewrite list_lookup_fmap, Ej, <-Heq.
    + by rewrite list_lookup_fmap, Hk.
Qed.

Lemma title_not_among_others (l : list TaskModel) k t :
  NoDup (tm_title <$> l) → l !! k = Some t →
  tm_title t ∉ tm_title <$> filter (λ x, tm_id x ≠ tm_id t) l.
Proof.
  intros Hnd Hk (x & Hx & [Hne Hin]%list_elem_of_filter)%list_elem_of_fmap.
  apply list_elem_of_lookup in Hin as [j Hj].
  assert (j = k) as ->.
  { apply (NoDup_lookup (tm_title <$> l) j k (tm_title t)); [done| |].
    - by rewrite list_lookup_fmap, Hj, Hx.
    - by rewrite list_lookup_fmap, Hk. }
  congruence.
Qed.

Lemma head_filter_title_other_None ttl i (l : list TaskModel) :
  ttl ∉ tm_title <$> filter (λ t, tm_id t ≠ i) l →
  head (filter (λ t, tm_title t = ttl ∧ tm_id t ≠ i) l) = None.
Proof.
  intros Hout. apply head_filter_None. intros t Hin [Ht Hne].
  apply Hout, list_elem_of_fmap. exists t. split; [done|].
  by apply list_elem_of_filter.
Qed.

Lemma head_filter_title_None ttl (l : list TaskModel) :
  ttl ∉ tm_title <$> l → head (filter (λ t, tm_title t = ttl) l) = None.
Proof.
  intros Hout. apply head_filter_None. intros t Hin Ht.
  apply Hout, list_elem_of_fmap. by exists t.
Qed.

(** X1: creating a task whose title is not stored yet (the generated id
    being new) appends one row holding the title, description and
    status of the request, leaves the sessions alone, and the new task
    can then be fetched by its id. *)
Theorem X1_create_task_then_get (e e' : Env) (d : DB) (task : Task) :
  title task ∉ tm_title <$> tasks d →
  uuid4 e ∉ tm_id <$> tasks d →
  run (create_task task) e d
    = (Return ("Zadanie zostało utworzone.",
               {| tm_id := uuid4 e; tm_title := title task;
                  tm_description := description task; tm_status := status task |}),
       {| tasks := tasks d ++ [{| tm_id := uuid4 e; tm_title := title task;
                                  tm_description := description task;
                                  tm_status := status task |}];
          pomodoro_sessions := pomodoro_sessions d |}) ∧
  run (get_task (uuid4 e)) e' (run (create_task task) e d).2
    = (Return {| tm_id := uuid4 e; tm_title := title task;
                 tm_description := description task; tm_status := status task |},
       (run (create_task task) e d).2).
Proof.
  intros Httl Hid. rewrite run_create_task, head_filter_title_None by done.
  rewrite decide_False by done. split; [done|].
  rewrite run_get_task. csimpl.
  rewrite filter_app, filter_id_absent by done. csimpl.
  by rewrite filter_cons_True.
Qed.

Lemma X1_create_task_then_get_witness :
  run (get_task "c") env_a (run (create_task task_report_lower) env_c db_two_tasks).2
    = (Return {| tm_id := "c"; tm_title := "write report";
                 tm_description := None; tm_status := "DONE" |},
       (run (create_task task_report_lower) env_c db_two_tasks).2).
Proof.
  apply (X1_create_task_then_get env_c env_a db_two_tasks task_report_lower);
    vm_compute; intros H;
    repeat (apply elem_of_cons in H as [H|H]; [discriminate|]);
    by apply elem_of_nil in H.
Defined.

(** X2: in a reachable database, updating a stored task to a title that
    no other task holds replaces the title, description and status of
    exactly that row, in place and keeping its id; the other tasks and
    all sessions are untouched, and fetching the id then gives the
    updated row. *)
Theorem X2_update_task_replaces (e e' : Env) (d : DB) (k : nat) (t : TaskModel)
    (task : Task) :
  reachable d →
  tasks d !! k = Some t →
  title task ∉ tm_title <$> filter (λ x, tm_id x ≠ tm_id t) (tasks d) →
  run (update_task (tm_id t) task) e d
    = (Return ("Zadanie zostało zaktualizowane.",
               {| tm_id := tm_id t; tm_title := title task;
                  tm_description := description task; tm_status := status task |}),
       {| tasks := <[k := {| tm_id := tm_id t; tm_title := title task;
                             tm_description := description task;
                             tm_status := status task |}]> (tasks d);
          pomodoro_sessions := pomodoro_sessions d |}) ∧
  run (get_task (tm_id t)) e' (run (update_task (tm_id t) task) e d).2
    = (Return {| tm_id := tm_id t; tm_title := title task;
                 tm_description := description task; tm_status := status task |},
       (run (update_task (tm_id t) task) e d).2).
Proof.
  intros Hr Hk Hfree.
  destruct (reachable_consistent d Hr) as (Hids & _ & _).
  rewrite run_update_task, (head_filter_id_lookup _ k t Hids Hk).
  rewrite head_filter_title_other_None by done.
  rewrite (updated_rows_insert _ k t task Hids Hk).
  split; [done|]. rewrite run_get_task. csimpl.
  set (t' := set_task (title task) (description task) (status task) t).
  assert (head (filter (λ x, tm_id x = tm_id t') (<[k:=t']> (tasks d))) = Some t') as Hh.
  { apply (head_filter_id_lookup _ k).
    - rewrite list_fmap_insert. csimpl.
      rewrite list_insert_id; [done|]. by rewrite list_lookup_fmap, Hk.
    - apply list_lookup_insert_eq. by eapply lookup_lt_Some. }
  csimpl in Hh. by rewrite Hh.
Qed.

Lemma X2_update_task_replaces_witness :
  run (update_task "b" task_report_lower) env_c db_two_tasks
    = (Return ("Zadanie zostało zaktualizowane.",
               {| tm_id := "b"; tm_title := "write report";
                  tm_description := None; tm_status := "DONE" |}),
       {| tasks := [{| tm_id := "a"; tm_title := "Write report";
                       tm_description := None; tm_status := "TODO" |};
                    {| tm_id := "b"; tm_title := "write report";
                       tm_description := None; tm_status := "DONE" |}];
          pomodoro_sessions := [] |}).
Proof.
  refine (proj1 (X2_update_task_replaces env_c env_a db_two_tasks 1
                   {| tm_id := "b"; tm_title := "Plan sprint";
                      tm_description := Some "two weeks"; tm_status := "IN_PROGRESS" |}
                   task_report_lower reachable_db_two_tasks _ _)).
  - reflexivity.
  - vm_compute. intros H.
    repeat (apply elem_of_cons in H as [H|H]; [discriminate|]).
    by apply elem_of_nil in H.
Defined.

(** X3: in a reachable database a task can be updated while keeping its
    own title: the uniqueness check leaves out the row being updated, so
    the request succeeds and only description and status change. *)
Theorem X3_update_task_keeps_own_title (e : Env) (d : DB) (k : nat) (t : TaskModel)
    (task : Task) :
  reachable d →
  tasks d !! k = Some t →
  title task = tm_title t →
  run (update_task (tm_id t) task) e d
    = (Return ("Zadanie zostało zaktualizowane.",
               {| tm_id := tm_id t; tm_title := tm_title t;
                  tm_description := description task; tm_status := status task |}),
       {| tasks := <[k := {| tm_id := tm_id t; tm_title := tm_title t;
                             tm_description := description task;
                             tm_status := status task |}]> (tasks d);
          pomodoro_sessions := pomodoro_sessions d |}).
Proof.
  intros Hr Hk Httl.
  destruct (reachable_consistent d Hr) as (Hids & Htitles & _).
  rewrite run_update_task, (head_filter_id_lookup _ k t Hids Hk).
  rewrite head_filter_title_other_None
    by (rewrite Httl; by apply (title_not_among_others _ k)).
  rewrite (updated_rows_insert _ k t task Hids Hk).
  unfold set_task. by rewrite Httl.
Qed.

Lemma X3_update_task_keeps_own_title_witness :
  run (update_task "a" {| title := "Write report"; description := Some "draft";
                          status := "DONE" |}) env_c db_two_tasks
    = (Return ("Zadanie zostało zaktualizowane.",
               {| tm_id := "a"; tm_title := "Write report";
                  tm_description := Some "draft"; tm_status := "DONE" |}),
       {| tasks := <[0%nat := {| tm_id := "a"; tm_title := "Write report";
                                 tm_description := Some "draft"; tm_status := "DONE" |}]>
                     (tasks db_two_tasks);
          pomodoro_sessions := pomodoro_sessions db_two_tasks |}).
Proof.
  apply (X3_update_task_keeps_own_title env_c db_two_tasks 0
           {| tm_id := "a"; tm_title := "Write report";
              tm_description := None; tm_status := "TODO" |}
           {| title := "Write report"; description := Some "draft"; status := "DONE" |}
           reachable_db_two_tasks); reflexivity.
Defined.

(** X4: for an id that no task has, fetching, updating and deleting the
    task and starting a pomodoro all fail with NotFound (404) and leave
    the database unchanged; for an update this comes before the title
    check, so it holds even when the new title is taken. *)
Theorem X4_unknown_task_not_found (e : Env) (d : DB) (task_id : string) (task : Task) :
  task_id ∉ tm_id <$> tasks d →
  run (get_task task_id) e d = (Raise (HTTPException 404 msg_task_not_found), d) ∧
  run (update_task task_id task) e d = (Raise (HTTPException 404 msg_task_not_found), d) ∧
  run (delete_task task_id) e d = (Raise (HTTPException 404 msg_task_not_found), d) ∧
  run (create_pomodoro task_id) e d = (Raise (HTTPException 404 msg_task_not_found), d).
Proof.
  intros Hout%head_filter_id_None.
  rewrite run_get_task, run_update_task, run_delete_task, run_create_pomodoro, Hout.
  done.
Qed.

Lemma X4_unknown_task_not_found_witness :
  run (update_task "xyz" task_report) env_c db_two_tasks
    = (Raise (HTTPException 404 msg_task_not_found), db_two_tasks).
Proof.
  refine (proj1 (proj2 (X4_unknown_task_not_found env_c db_two_tasks "xyz" task_report _))).
  vm_compute. intros H.
  repeat (apply elem_of_cons in H as [H|H]; [discriminate|]).
  by apply elem_of_nil in H.
Defined.

Lemma delete_task_absent i e d : i ∉ tm_id <$> tasks (run (delete_task i) e d).2.
Proof.
  rewrite run_delete_task. destruct (head _) eqn:E; csimpl.
  - intros (x & -> & [Hne _]%list_elem_of_filter)%list_elem_of_fmap. done.
  - by apply head_filter_id_None.
Qed.

(** X5: after a delete request for an id, no task has that id any more,
    whatever the database was: fetching it, updating it, deleting it
    again and starting a pomodoro for it all fail with NotFound. *)
Theorem X5_deleted_task_is_gone (e e' : Env) (d : DB) (task_id : string) (task : Task) :
  run (get_task task_id) e' (run (delete_task task_id) e d).2
    = (Raise (HTTPException 404 msg_task_not_found), (run (delete_task task_id) e d).2) ∧
  run (update_task task_id task) e' (run (delete_task task_id) e d).2
    = (Raise (HTTPException 404 msg_task_not_found), (run (delete_task task_id) e d).2) ∧
  run (delete_task task_id) e' (run (delete_task task_id) e d).2
    = (Raise (HTTPException 404 msg_task_not_found), (run (delete_task task_id) e d).2) ∧
  run (create_pomodoro task_id) e' (run (delete_task task_id) e d).2
    = (Raise (HTTPException 404 msg_task_not_found), (run (delete_task task_id) e d).2).
Proof.
  pose proof (delete_task_absent task_id e d) as Hout%head_filter_id_None.
  rewrite run_get_task, run_update_task, (run_delete_task _ e'), run_create_pomodoro, Hout.
  done.
Qed.

(** X6: in a reachable database, deleting a task frees its title: a
    task with the same title can be created right afterwards (the
    generated id being new). *)
Theorem X6_delete_frees_title (e e' : Env) (d : DB) (k : nat) (t : TaskModel)
    (task : Task) :
  reachable d →
  tasks d !! k = Some t →
  title task = tm_title t →
  uuid4 e' ∉ tm_id <$> tasks d →
  run (create_task task) e' (run (delete_task (tm_id t)) e d).2
    = (Return ("Zadanie zostało utworzone.", new_task e' task),
       {| tasks := filter (λ x, tm_id x ≠ tm_id t) (tasks d) ++ [new_task e' task];
          pomodoro_sessions := pomodoro_sessions d |}).
Proof.
  intros Hr Hk Httl Hfresh.
  destruct (reachable_consistent d Hr) as (Hids & Htitles & _).
  rewrite run_delete_task, (head_filter_id_lookup _ k t Hids Hk). csimpl.
  rewrite run_create_task. csimpl.
  rewrite head_filter_title_None
    by (rewrite Httl; by apply (title_not_among_others _ k)).
  rewrite decide_False; [done|].
  intros (x & Hx & [_ Hin]%list_elem_of_filter)%list_elem_of_fmap.
  apply Hfresh, list_elem_of_fmap. by exists x.
Qed.

Lemma X6_delete_frees_title_witness :
  run (create_task task_report) env_c (run (delete_task "a") env_c db_two_tasks).2
    = (Return ("Zadanie zostało utworzone.", new_task env_c task_report),
       {| tasks := filter (λ x, tm_id x ≠ "a") (tasks db_two_tasks)
                   ++ [new_task env_c task_report];
          pomodoro_sessions := pomodoro_sessions db_two_tasks |}).
Proof.
  apply (X6_delete_frees_title env_c env_c db_two_tasks 0
           {| tm_id := "a"; tm_title := "Write report";
              tm_description := None; tm_status := "TODO" |}
           task_report reachable_db_two_tasks); [reflexivity|reflexivity|].
  vm_compute. intros H.
  repeat (apply elem_of_cons in H as [H|H]; [discriminate|]).
  by apply elem_of_nil in H.
Defined.

(** X7: in a reachable database the ids of the tasks are pairwise
    distinct, and fetching the id of any stored task returns exactly
    that row. *)
Theorem X7_get_task_by_id (e : Env) (d : DB) (k : nat) (t : TaskModel) :
  reachable d →
  tasks d !! k = Some t →
  NoDup (tm_id <$> tasks d) ∧
  run (get_task (tm_id t)) e d = (Return t, d).
Proof.
  intros Hr Hk. destruct (reachable_consistent d Hr) as (Hids & _ & _).
  split; [done|].
  by rewrite run_get_task, (head_filter_id_lookup _ k t Hids Hk).
Qed.

Lemma X7_get_task_by_id_witness :
  run (get_task "b") env_c db_two_tasks
    = (Return {| tm_id := "b"; tm_title := "Plan sprint";
                 tm_description := Some "two weeks"; tm_status := "IN_PROGRESS" |},
       db_two_tasks).
Proof.
  refine (proj2 (X7_get_task_by_id env_c db_two_tasks 1
                   {| tm_id := "b"; tm_title := "Plan sprint";
                      tm_description := Some "two weeks"; tm_status := "IN_PROGRESS" |}
                   reachable_db_two_tasks _)).
  reflexivity.
Defined.

(* --------------------------------------------------------------------- *)
(* 19. Failures and the boundary                                         *)
(* --------------------------------------------------------------------- *)

Lemma run_read_root e d :
  run read_root e d = (Return "Witaj w aplikacji TODO z obsługą Pomodoro!", d).
Proof. reflexivity. Qed.

Ltac serve_cases :=
  unfold serve; cbn [route];
  rewrite ?run_with_body;
  repeat match goal with
         | |- context [validate_Task ?b] => destruct (validate_Task b)
         end;
  rewrite ?run_get_tasks_response, ?run_get_task_response,
    ?run_fmap, ?run_read_root, ?run_create_task, ?run_get_tasks, ?run_get_task,
    ?run_update_task, ?run_delete_task, ?run_create_pomodoro, ?run_stop_pomodoro,
    ?run_get_pomodoro_stats;
  repeat match goal with
         | |- context [if truthy ?st then ?a else ?b] =>
             destruct (if truthy st then a else b)
         | |- context [head ?l] => destruct (head l) eqn:?
         | |- context [decide ?P] => destruct (decide P)
         end; csimpl.

(** X8: a request that ends in an exception, whichever it is, leaves
    both tables exactly as they were. *)
Theorem X8_failure_leaves_database (e : Env) (rq : Request) (d : DB) (x : exn) :
  (serve e rq d).1 = Raise x → (serve e rq d).2 = d.
Proof. destruct rq; serve_cases; intros; done. Qed.

Lemma X8_failure_leaves_database_witness :
  (serve env_c (POST_pomodoro "a") db_active).2 = db_active.
Proof.
  apply (X8_failure_leaves_database env_c (POST_pomodoro "a") db_active
           (HTTPException Conflict msg_already_active)).
  reflexivity.
Defined.

(** X9: when the generated id is not yet a key of either table, no
    request ends in an IntegrityError: the handlers check the title
    before the unique column can reject the statement. *)
Theorem X9_no_integrity_error (e : Env) (rq : Request) (d : DB) :
  uuid4 e ∉ tm_id <$> tasks d →
  uuid4 e ∉ ps_id <$> pomodoro_sessions d →
  (serve e rq d).1 ≠ Raise IntegrityError.
Proof. intros Ht Hs. destruct rq; serve_cases; done. Qed.

Lemma X9_no_integrity_error_witness :
  (serve env_c (PUT_task "b" body_report) db_two_tasks).1 ≠ Raise IntegrityError.
Proof.
  apply (X9_no_integrity_error env_c (PUT_task "b" body_report) db_two_tasks);
    vm_compute; intros H;
    repeat (apply elem_of_cons in H as [H|H]; [discriminate|]);
    by apply elem_of_nil in H.
Defined.

Lemma length_between_spec lo hi s :
  length_between lo hi s = true ↔ (lo ≤ len s ≤ hi)%nat.
Proof.
  unfold length_between. by rewrite andb_true_iff, !bool_decide_eq_true.
Qed.

(* Characters, not bytes: a title of two Polish letters is too short
   although its encoding has four bytes, and one of sixty such letters
   is accepted although its encoding has 120. *)
Example len_counts_characters :
  len "Tytuł" = 5%nat ∧ String.length "Tytuł" = 6%nat ∧
  validate_Task {| body_title := Some "żó"; body_description := None;
                   body_status := None |} = None ∧
  validate_Task
    {| body_title :=
         Some "łłłłłłłłłłłłłłłłłłłłłłłłłłłłłłłłłłłłłłłłłłłłłłłłłłłłłłłłłłłł";
       body_description := None; body_status := None |}
  = Some {| title := "łłłłłłłłłłłłłłłłłłłłłłłłłłłłłłłłłłłłłłłłłłłłłłłłłłłłłłłłłłłł";
            description := None; status := "TODO" |}.
Proof. split_and!; reflexivity. Qed.

Lemma description_ok_spec (descr : option string) :
  from_option (length_between 0 300) true descr = true ↔
  ∀ s, descr = Some s → (len s ≤ 300)%nat.
Proof.
  destruct descr as [s|]; csimpl.
  - rewrite length_between_spec. split.
    + intros [_ H] s' [= <-]. done.
    + intros H. split; [lia|]. by apply H.
  - split; [intros _ s; discriminate|done].
Qed.

Lemma validate_Task_Some (b : TaskBody) (task : Task) :
  validate_Task b = Some task ↔
  body_title b = Some (title task) ∧
  (3 ≤ len (title task) ≤ 100)%nat ∧
  body_description b = description task ∧
  (∀ s, description task = Some s → (len s ≤ 300)%nat) ∧
  status task = default "TODO" (body_status b) ∧
  re_match status_regex (status task) = true.
Proof.
  destruct b as [bt bd bs], task as [ttl descr st]. unfold validate_Task. csimpl.
  rewrite <-length_between_spec, <-description_ok_spec. split.
  - destruct bt as [ttl'|]; [|done].
    destruct (length_between 3 100 ttl') eqn:E1; [|done]. csimpl.
    destruct (from_option _ _ bd) eqn:E2; [|done]. csimpl.
    destruct bs as [st'|]; csimpl.
    + destruct (re_match status_regex st') eqn:E3; [|done].
      intros [= -> -> ->]. done.
    + intros [= -> -> <-]. done.
  - intros (-> & E1 & -> & E2 & -> & E3). rewrite E1, E2. csimpl.
    destruct bs as [st'|]; csimpl in *; [by rewrite E3|done].
Qed.

Lemma validate_Task_row_valid b task i :
  validate_Task b = Some task →
  row_valid {| tm_id := i; tm_title := title task;
               tm_description := description task; tm_status := status task |}.
Proof.
  intros (_ & Hlen & _ & Hdescr & _ & Hst)%validate_Task_Some.
  by unfold row_valid.
Qed.

Lemma updated_row_valid i task t :
  row_valid {| tm_id := i; tm_title := title task;
               tm_description := description task; tm_status := status task |} →
  row_valid t →
  row_valid (updated_row i task t).
Proof. unfold updated_row. by destruct (decide _). Qed.

Lemma serve_tasks_valid e rq d :
  Forall row_valid (tasks d) → Forall row_valid (tasks (serve e rq d).2).
Proof.
  intros Hd. unfold serve. destruct rq; cbn [route];
    rewrite ?run_with_body;
    try (destruct (validate_Task body) as [task|] eqn:Hv; [|done]);
    rewrite ?run_fmap_db, ?run_get_tasks_response, ?run_get_task_response.
  - done.
  - rewrite run_create_task. destruct (head _); [done|].
    destruct (decide _); [done|]. csimpl.
    apply Forall_app. split; [done|]. apply Forall_singleton.
    by eapply validate_Task_row_valid.
  - done.
  - done.
  - rewrite run_update_task. destruct (head _); [|done].
    destruct (head _); [done|]. csimpl.
    apply Forall_fmap. eapply Forall_impl; [exact Hd|]. intros x Hx. csimpl.
    apply updated_row_valid; [|done]. by eapply validate_Task_row_valid.
  - rewrite run_delete_task. destruct (head _); [|done]. csimpl.
    apply Forall_forall. intros x [_ Hx]%list_elem_of_filter.
    rewrite Forall_forall in Hd. by apply Hd.
  - rewrite run_create_pomodoro. destruct (head _); [|done].
    destruct (head _); [done|]. by destruct (decide _).
  - rewrite run_stop_pomodoro. by destruct (head _).
  - done.
Qed.

Lemma reachable_tasks_valid d : reachable d → Forall row_valid (tasks d).
Proof.
  induction 1 as [|e rq d _ IH]; [by apply Forall_nil|by apply serve_tasks_valid].
Qed.

(** X11: every task stored in a reachable database satisfies the
    constraints of the request model: a title of 3 to 100 characters
    (characters, not bytes of the encoding), a description of at most
    300 characters if there is one, and a status that matches the status
    pattern. *)
Theorem X11_stored_tasks_valid (d : DB) (t : TaskModel) :
  reachable d →
  t ∈ tasks d →
  (3 ≤ len (tm_title t) ≤ 100)%nat ∧
  (∀ s, tm_description t = Some s → (len s ≤ 300)%nat) ∧
  re_match status_regex (tm_status t) = true.
Proof.
  intros Hr Hin. pose proof (reachable_tasks_valid d Hr) as Hall.
  rewrite Forall_forall in Hall. by apply Hall.
Qed.

Lemma X11_stored_tasks_valid_witness :
  (3 ≤ len "Plan sprint" ≤ 100)%nat ∧
  re_match status_regex "IN_PROGRESS" = true.
Proof.
  destruct (X11_stored_tasks_valid db_two_tasks
              {| tm_id := "b"; tm_title := "Plan sprint";
                 tm_description := Some "two weeks"; tm_status := "IN_PROGRESS" |}
              reachable_db_two_tasks) as (Hlen & _ & Hst).
  - vm_compute. right. left.
  - split; [exact Hlen|exact Hst].
Defined.

(** X16: in a reachable database, listing the tasks with a status filter
    that is not empty and does not match the status pattern answers with
    the empty list. *)
Theorem X16_unknown_status_lists_nothing (e : Env) (d : DB) (st : string) :
  reachable d →
  st ≠ "" →
  re_match status_regex st = false →
  run (get_tasks (Some st)) e d = (Return [], d).
Proof.
  intros Hr Hne Hst. rewrite run_get_tasks. csimpl.
  rewrite bool_decide_eq_false_2 by done. csimpl. do 2 f_equal.
  apply head_None, head_filter_None. intros t Hin [= Ht].
  pose proof (reachable_tasks_valid d Hr) as Hall.
  rewrite Forall_forall in Hall. destruct (Hall t Hin) as (_ & _ & Hm). congruence.
Qed.

Lemma X16_unknown_status_lists_nothing_witness :
  run (get_tasks (Some "BOGUS")) env_c db_two_tasks = (Return [], db_two_tasks).
Proof.
  apply (X16_unknown_status_lists_nothing env_c db_two_tasks "BOGUS"
           reachable_db_two_tasks); [discriminate|reflexivity].
Defined.

(* --------------------------------------------------------------------- *)
(* 20. More on sessions and statistics                                   *)
(* --------------------------------------------------------------------- *)

Lemma change_sessions_timed e d d' :
  Forall session_timed (pomodoro_sessions d) → change e d d' →
  Forall session_timed (pomodoro_sessions d').
Proof.
  intros Hd Hc.
  destruct Hc as [|task Hid Httl|i task Hfree|i|i Hid Hact|i s Hs]; csimpl; try done.
  - apply Forall_app. split; [done|]. by apply Forall_singleton.
  - apply Forall_fmap. eapply Forall_impl; [exact Hd|]. intros x Hx. csimpl.
    unfold completed_row. by destruct (decide _).
Qed.

(** X12: every session stored in a reachable database ends exactly 25
    minutes after it starts: the end time is fixed when the session is
    created and stopping does not touch it. *)
Theorem X12_sessions_last_25_minutes (d : DB) (s : PomodoroSession) :
  reachable d →
  s ∈ pomodoro_sessions d →
  ps_end_time s = ps_start_time s + 25 * 60 * 1000000.
Proof.
  intros Hr Hin.
  assert (Forall session_timed (pomodoro_sessions d)) as Hall.
  { clear s Hin. induction Hr as [|e rq d _ IH]; [by apply Forall_nil|].
    eapply change_sessions_timed; [exact IH|apply serve_change]. }
  rewrite Forall_forall in Hall. by apply Hall.
Qed.

Lemma X12_sessions_last_25_minutes_witness :
  ps_end_time (set_completed true (new_session env_b "a"))
    = ps_start_time (set_completed true (new_session env_b "a")) + 25 * 60 * 1000000.
Proof.
  apply (X12_sessions_last_25_minutes db_stopped _ reachable_db_stopped).
  vm_compute. left.
Defined.

Lemma credited_minutes_length j d :
  credited_minutes j d =
    if decide (length (completed_sessions j d) = 0%nat) then None
    else Some (25 * Z.of_nat (length (completed_sessions j d))).
Proof. unfold credited_minutes. by destruct (completed_sessions j d). Qed.

Lemma completed_after_insert (l : list PomodoroSession) k s j :
  l !! k = Some s → ps_completed s = false →
  length (filter (λ x, ps_task_id x = j ∧ ps_completed x = true)
            (<[k := set_completed true s]> l))
  = (length (filter (λ x, ps_task_id x = j ∧ ps_completed x = true) l)
     + if decide (ps_task_id s = j) then 1 else 0)%nat.
Proof.
  intros Hk Hc.
  rewrite insert_take_drop by (by eapply lookup_lt_Some).
  rewrite <-(take_drop_middle l k s Hk) at 3.
  rewrite !filter_app, !length_app, !filter_cons. csimpl.
  rewrite (decide_False (P := _ ∧ ps_completed s = true)) by (intros [_ ?]; congruence).
  destruct (decide (ps_task_id s = j)) as [Hj|Hj].
  - rewrite decide_True by done. csimpl. lia.
  - rewrite decide_False by (intros [? _]; done). lia.
Qed.

(** X13: in a reachable database, stopping the active pomodoro of a task
    adds exactly 25 minutes to that task in the statistics and changes
    the entry of no other task. *)
Theorem X13_stop_credits_25 (e e1 e2 : Env) (d : DB) (task_id : string) :
  reachable d →
  active_sessions task_id d ≠ [] →
  ∃ stats stats' : gmap string Z,
    run get_pomodoro_stats e1 d = (Return ("Statystyki Pomodoro.", stats), d) ∧
    (run get_pomodoro_stats e2 (run (stop_pomodoro task_id) e d).2).1
      = Return ("Statystyki Pomodoro.", stats') ∧
    stats' = <[task_id := default 0 (stats !! task_id) + 25]> stats.
Proof.
  intros Hr Hact.
  destruct (head (active_sessions task_id d)) as [s|] eqn:Hs;
    [|by apply head_None in Hs].
  assert (s ∈ active_sessions task_id d) as Hin by (by apply head_Some_elem_of).
  unfold active_sessions in Hin. apply list_elem_of_filter in Hin as [[Hi Hc] Hin].
  apply list_elem_of_lookup in Hin as [k Hk].
  destruct (reachable_consistent d Hr) as (_ & _ & Hnd).
  rewrite run_stop_pomodoro, Hs, (completed_rows_insert _ k s Hnd Hk).
  rewrite !run_get_pomodoro_stats. cbn [fst snd pomodoro_sessions].
  do 2 eexists. split_and!; [reflexivity|reflexivity|].
  apply map_eq. intros j.
  rewrite lookup_insert.
  pose proof (stats_lookup {| tasks := tasks d;
                              pomodoro_sessions :=
                                <[k:=set_completed true s]> (pomodoro_sessions d) |} j)
    as Hafter.
  cbn [pomodoro_sessions] in Hafter. rewrite Hafter, !(stats_lookup d).
  rewrite !credited_minutes_length. unfold completed_sessions. cbn [pomodoro_sessions].
  rewrite (completed_after_insert _ k s j Hk Hc), Hi.
  destruct (decide (task_id = j)) as [->|Hne].
  - rewrite decide_False by lia.
    destruct (decide (length _ = 0%nat)) as [->|Hn]; csimpl; f_equal; lia.
  - rewrite Nat.add_0_r. done.
Qed.

Lemma X13_stop_credits_25_witness :
  ∃ stats stats' : gmap string Z,
    run get_pomodoro_stats env_a db_active
      = (Return ("Statystyki Pomodoro.", stats), db_active) ∧
    (run get_pomodoro_stats env_a (run (stop_pomodoro "a") env_c db_active).2).1
      = Return ("Statystyki Pomodoro.", stats') ∧
    stats' = <["a" := default 0 (stats !! "a") + 25]> stats.
Proof.
  apply (X13_stop_credits_25 env_c env_a env_a db_active "a" reachable_db_active).
  vm_compute. discriminate.
Defined.

(** X14: the status pattern matches exactly six strings: TODO,
    IN_PROGRESS and DONE, and each of them followed by one line feed
    (in Python, $ also matches just before a line feed that ends the
    string). *)
Theorem X14_status_pattern (st : string) :
  re_match status_regex st = true ↔
  st ∈ ["TODO"; "IN_PROGRESS"; "DONE";
        "TODO" +:+ newline; "IN_PROGRESS" +:+ newline; "DONE" +:+ newline].
Proof.
  rewrite status_regex_spec. unfold status_values. split.
  - intros [Hin|(v & Hin & ->)];
      repeat (apply elem_of_cons in Hin as [->|Hin]; [set_solver|]);
      by apply elem_of_nil in Hin.
  - intros Hin.
    repeat (apply elem_of_cons in Hin as [->|Hin];
            [first [left; set_solver | right; eexists; split; [|reflexivity]; set_solver]|]).
    by apply elem_of_nil in Hin.
Qed.

Lemma completed_after_completion i j (l : list PomodoroSession) :
  (length (filter (λ s, ps_task_id s = j ∧ ps_completed s = true) l)
   ≤ length (filter (λ s, ps_task_id s = j ∧ ps_completed s = true) (completed_row i <$> l)))%nat.
Proof.
  induction l as [|s l IH]; [done|]. csimpl.
  rewrite !filter_cons. rewrite completed_row_task_id.
  destruct (decide (ps_task_id s = j ∧ ps_completed s = true)) as [[Hj Hc]|Hn].
  - rewrite decide_True; [csimpl; lia|].
    split; [done|]. unfold completed_row. by destruct (decide _).
  - destruct (decide _); csimpl; lia.
Qed.

Lemma change_completed_mono e d d' j :
  change e d d' →
  (length (completed_sessions j d) ≤ length (completed_sessions j d'))%nat.
Proof.
  intros Hc. unfold completed_sessions.
  destruct Hc as [|task Hid Httl|i task Hfree|i|i Hid Hact|i s Hs]; csimpl; try done.
  - rewrite filter_app, length_app. lia.
  - apply completed_after_completion.
Qed.

Lemma serve_all_completed_mono rqs d j :
  (length (completed_sessions j d) ≤ length (completed_sessions j (serve_all rqs d)))%nat.
Proof.
  revert d. induction rqs as [|[e rq] rqs IH]; intros d; csimpl; [done|].
  etrans; [|apply IH]. eapply change_completed_mono, serve_change.
Qed.

(** X15: the statistics never go down: whatever requests are served, a
    task that had an entry in the statistics still has one afterwards,
    with at least as many minutes. *)
Theorem X15_stats_never_decrease (e e' : Env) (rqs : list (Env * Request)) (d : DB) :
  ∃ stats stats' : gmap string Z,
    run get_pomodoro_stats e d = (Return ("Statystyki Pomodoro.", stats), d) ∧
    run get_pomodoro_stats e' (serve_all rqs d)
      = (Return ("Statystyki Pomodoro.", stats'), serve_all rqs d) ∧
    ∀ (j : string) (v : Z), stats !! j = Some v → ∃ v', stats' !! j = Some v' ∧ (v ≤ v')%Z.
Proof.
  do 2 eexists. split_and!; [apply run_get_pomodoro_stats..|].
  intros j v. rewrite !stats_lookup, !credited_minutes_length.
  pose proof (serve_all_completed_mono rqs d j) as Hle.
  destruct (decide (length (completed_sessions j d) = 0%nat)); [done|].
  intros [= <-]. rewrite decide_False by lia.
  eexists. split; [done|]. lia.
Qed.

Lemma X15_stats_never_decrease_witness :
  ∃ stats stats' : gmap string Z,
    run get_pomodoro_stats env_a db_stopped
      = (Return ("Statystyki Pomodoro.", stats), db_stopped) ∧
    run get_pomodoro_stats env_a (serve_all [(env_c, DELETE_task "a")] db_stopped)
      = (Return ("Statystyki Pomodoro.", stats'),
         serve_all [(env_c, DELETE_task "a")] db_stopped) ∧
    ∃ v', stats' !! "a" = Some v' ∧ (25 ≤ v')%Z.
Proof.
  destruct (X15_stats_never_decrease env_a env_a [(env_c, DELETE_task "a")] db_stopped)
    as (stats & stats' & Hs & Hs' & Hmono).
  exists stats, stats'. split_and!; [exact Hs|exact Hs'|].
  apply Hmono. injection Hs as <-. reflexivity.
Defined.

(** X17: in a reachable database, once the active pomodoro of an
    existing task is stopped, a new one can be started for it at once
    (the generated id being new). *)
Theorem X17_start_after_stop (e e' : Env) (d : DB) (task_id : string) :
  reachable d →
  task_id ∈ tm_id <$> tasks d →
  active_sessions task_id d ≠ [] →
  uuid4 e' ∉ ps_id <$> pomodoro_sessions d →
  run (create_pomodoro task_id) e' (run (stop_pomodoro task_id) e d).2
    = (Return ("Timer Pomodoro został uruchomiony.", new_session e' task_id),
       {| tasks := tasks d;
          pomodoro_sessions :=
            pomodoro_sessions (run (stop_pomodoro task_id) e d).2
            ++ [new_session e' task_id] |}).
Proof.
  intros Hr Hin Hact Hfresh.
  destruct (head (active_sessions task_id d)) as [s|] eqn:Hs;
    [|by apply head_None in Hs].
  assert (active_sessions task_id d = [s]) as Hone.
  { pose proof (reachable_one_active d Hr task_id) as Hlen.
    destruct (active_sessions task_id d) as [|s0 [|s1 k]];
      csimpl in *; [done|congruence|lia]. }
  rewrite run_stop_pomodoro, Hs. cbn [snd].
  rewrite run_create_pomodoro. cbn [tasks pomodoro_sessions].
  destruct (head_filter_id_Some task_id (tasks d) Hin) as [t ->].
  unfold active_sessions in *. cbn [pomodoro_sessions].
  rewrite (no_active_after_completion task_id s _ Hone). csimpl.
  rewrite completed_rows_ids. by rewrite decide_False.
Qed.

Lemma X17_start_after_stop_witness :
  run (create_pomodoro "a") env_c (run (stop_pomodoro "a") env_a db_active).2
    = (Return ("Timer Pomodoro został uruchomiony.", new_session env_c "a"),
       {| tasks := tasks db_active;
          pomodoro_sessions :=
            pomodoro_sessions (run (stop_pomodoro "a") env_a db_active).2
            ++ [new_session env_c "a"] |}).
Proof.
  apply (X17_start_after_stop env_a env_c db_active "a" reachable_db_active).
  - vm_compute. left.
  - vm_compute. discriminate.
  - vm_compute. intros H.
    repeat (apply elem_of_cons in H as [H|H]; [discriminate|]).
    by apply elem_of_nil in H.
Defined.

(** X18: the two tables are independent: creating and updating a task
    never change the sessions (nor, therefore, the statistics), and
    starting and stopping a pomodoro never change the tasks. *)
Theorem X18_tables_are_independent (e e' : Env) (d : DB) (task_id : string) (task : Task) :
  pomodoro_sessions (run (create_task task) e d).2 = pomodoro_sessions d ∧
  pomodoro_sessions (run (update_task task_id task) e d).2 = pomodoro_sessions d ∧
  (run get_pomodoro_stats e' (run (create_task task) e d).2).1
    = (run get_pomodoro_stats e' d).1 ∧
  (run get_pomodoro_stats e' (run (update_task task_id task) e d).2).1
    = (run get_pomodoro_stats e' d).1 ∧
  tasks (run (create_pomodoro task_id) e d).2 = tasks d ∧
  tasks (run (stop_pomodoro task_id) e d).2 = tasks d.
Proof.
  rewrite !run_get_pomodoro_stats.
  rewrite run_create_task, run_update_task, run_create_pomodoro, run_stop_pomodoro.
  repeat match goal with
         | |- context [head ?l] => destruct (head l) eqn:?
         | |- context [decide ?P] => destruct (decide P)
         end; done.
Qed.

Lemma X14_status_pattern_witness :
  re_match status_regex ("DONE" +:+ newline) = true ∧
  ("done" ∉ ["TODO"; "IN_PROGRESS"; "DONE";
             "TODO" +:+ newline; "IN_PROGRESS" +:+ newline; "DONE" +:+ newline]).
Proof.
  split.
  - apply X14_status_pattern. vm_compute. do 5 right. left.
  - intros Hin%X14_status_pattern. vm_compute in Hin. discriminate.
Defined.
